(** * NFTMarketplace: a shallow embedding of the OP721 marketplace contract

    The contract under study is [examples/good/NFTMarketplace.ts] together
    with its event classes.  Every private method of the class becomes a
    computation in a small state-and-revert monad over the persistent
    storage of the contract; the cross-contract calls go through an
    explicit [Blockchain] environment. *)

From Stdlib Require Import NArith Lia.
From stdpp Require Import base option strings list countable gmap fin_maps.

Local Open Scope string_scope.
Local Open Scope N_scope.

(** ** 256-bit unsigned words *)

(** A [u256] is represented by its numeric value; the operations of the
    bignum package (not among the sources) are the comparisons and the
    addition that wraps around at [2^256]. *)
Definition U256_MODULUS : N := 2 ^ 256.

Definition is_u256 (n : N) : Prop := n < U256_MODULUS.

Module u256.
Definition Zero : N := 0.
Definition One : N := 1.
Definition fromU32 (n : N) : N := n mod 2 ^ 32.
Definition add (a b : N) : N := (a + b) mod U256_MODULUS.
Definition eq (a b : N) : bool := a =? b.
Definition gt (a b : N) : bool := b <? a.
Definition ge (a b : N) : bool := b <=? a.
Definition lt (a b : N) : bool := a <? b.
End u256.

(** ** Addresses *)

(** An [Address] is a 32-byte array.  It is represented by the value of
    those bytes read as a big-endian number, so that [addressToU256] and
    [u256ToAddress] (both conversions through the same 32 bytes) are the
    identity on the representation. *)
Definition Address : Type := N.

Definition isZero (a : Address) : bool := a =? 0.
Definition equals (a b : Address) : bool := a =? b.

Definition addressToU256 (addr : Address) : N := addr.
Definition u256ToAddress (val : N) : Address := val.

(** ** Reverts *)

Inductive Revert : Type := mkRevert (message : string).

#[global] Instance Revert_eq_dec : EqDecision Revert.
Proof. solve_decision. Defined.

(** ** Byte writers and events *)

(** What was written into a [BytesWriter], in order. *)
Inductive Written : Type :=
| writeU256 (v : N)
| writeAddress (a : Address)
| writeBoolean (b : bool).

Definition BytesWriter : Type := list Written.

Record NetEvent : Type := mkNetEvent {
  eventType : string;
  eventData : BytesWriter
}.

Definition ListingCreatedEvent (listingId : N) (collection : Address)
    (tokenId : N) (seller : Address) (price : N) : NetEvent :=
  mkNetEvent "ListingCreated"
    [writeU256 listingId; writeAddress collection; writeU256 tokenId;
     writeAddress seller; writeU256 price].

Definition ListingCancelledEvent (listingId : N) : NetEvent :=
  mkNetEvent "ListingCancelled" [writeU256 listingId].

Definition ListingSoldEvent (listingId : N) (buyer : Address) (price : N)
    : NetEvent :=
  mkNetEvent "ListingSold"
    [writeU256 listingId; writeAddress buyer; writeU256 price].

Definition BidPlacedEvent (bidId : N) (collection : Address) (tokenId : N)
    (bidder : Address) (amount : N) : NetEvent :=
  mkNetEvent "BidPlaced"
    [writeU256 bidId; writeAddress collection; writeU256 tokenId;
     writeAddress bidder; writeU256 amount].

Definition BidCancelledEvent (bidId : N) : NetEvent :=
  mkNetEvent "BidCancelled" [writeU256 bidId].

Definition BidAcceptedEvent (bidId : N) (seller : Address) : NetEvent :=
  mkNetEvent "BidAccepted" [writeU256 bidId; writeAddress seller].

Definition CollectionRegisteredEvent (collection : Address) (royaltyBps : N)
    : NetEvent :=
  mkNetEvent "CollectionRegistered"
    [writeAddress collection; writeU256 royaltyBps].

(** ** Storage pointers *)

(** [Blockchain.nextPointer] hands out a fresh pointer at each field
    initialiser, in declaration order; only their being pairwise distinct
    matters, so they are an enumeration. *)
Inductive Pointer : Type :=
| nextListingIdPointer
| listingCollectionPointer
| listingTokenIdPointer
| listingSellerPointer
| listingPricePointer
| listingActivePointer
| nextBidIdPointer
| bidCollectionPointer
| bidTokenIdPointer
| bidBidderPointer
| bidAmountPointer
| bidActivePointer
| collectionRoyaltyBpsPointer
| collectionRoyaltyRecipientPointer
| collectionRegisteredPointer
| platformFeeBpsPointer
| platformFeeRecipientPointer
| totalVolumePointer
| totalListingsPointer.

#[global] Instance Pointer_eq_dec : EqDecision Pointer.
Proof. solve_decision. Defined.

Definition Pointer_index (p : Pointer) : N :=
  match p with
  | nextListingIdPointer => 1
  | listingCollectionPointer => 2
  | listingTokenIdPointer => 3
  | listingSellerPointer => 4
  | listingPricePointer => 5
  | listingActivePointer => 6
  | nextBidIdPointer => 7
  | bidCollectionPointer => 8
  | bidTokenIdPointer => 9
  | bidBidderPointer => 10
  | bidAmountPointer => 11
  | bidActivePointer => 12
  | collectionRoyaltyBpsPointer => 13
  | collectionRoyaltyRecipientPointer => 14
  | collectionRegisteredPointer => 15
  | platformFeeBpsPointer => 16
  | platformFeeRecipientPointer => 17
  | totalVolumePointer => 18
  | totalListingsPointer => 19
  end.

Definition Pointer_of_index (n : N) : option Pointer :=
  match n with
  | 1 => Some nextListingIdPointer
  | 2 => Some listingCollectionPointer
  | 3 => Some listingTokenIdPointer
  | 4 => Some listingSellerPointer
  | 5 => Some listingPricePointer
  | 6 => Some listingActivePointer
  | 7 => Some nextBidIdPointer
  | 8 => Some bidCollectionPointer
  | 9 => Some bidTokenIdPointer
  | 10 => Some bidBidderPointer
  | 11 => Some bidAmountPointer
  | 12 => Some bidActivePointer
  | 13 => Some collectionRoyaltyBpsPointer
  | 14 => Some collectionRoyaltyRecipientPointer
  | 15 => Some collectionRegisteredPointer
  | 16 => Some platformFeeBpsPointer
  | 17 => Some platformFeeRecipientPointer
  | 18 => Some totalVolumePointer
  | 19 => Some totalListingsPointer
  | _ => None
  end.

#[global] Instance Pointer_countable : Countable Pointer.
Proof.
  apply (inj_countable Pointer_index Pointer_of_index).
  intros []; reflexivity.
Defined.

(** ** Contract state *)

(** Modelled from the spec: the storage classes ([StoredU256],
    [StoredMapU256], [AddressMemoryMap], [StoredAddress]) are the
    runtime's, not among the sources.  The persistent field store maps a
    pointer and a sub-key to a 32-byte word; a slot never written reads as
    zero, and a write is durable at once.  The events emitted so far are
    kept next to it. *)
Record State : Type := mkState {
  storage : gmap (Pointer * N) N;
  events : list NetEvent
}.

Definition emptyState : State := mkState ∅ [].

Definition sload (p : Pointer) (k : N) (st : State) : N :=
  default 0 (storage st !! (p, k)).

Definition sstore (p : Pointer) (k v : N) (st : State) : State :=
  mkState (<[(p, k) := v]> (storage st)) (events st).

Definition append_event (e : NetEvent) (st : State) : State :=
  mkState (storage st) (events st ++ [e]).

Arguments sload : simpl never.
Arguments sstore : simpl never.
Arguments append_event : simpl never.

(** ** The contract monad *)

(** A method reads and writes the state and either returns or throws a
    [Revert].  Nothing in the contract undoes a write: a throw leaves the
    state as it was at the throw. *)
Definition Contract (A : Type) : Type := State -> (Revert + A) * State.

Definition ret {A} (a : A) : Contract A := fun st => (inr a, st).

Definition throw {A} (message : string) : Contract A :=
  fun st => (inl (mkRevert message), st).

Definition bind {A B} (c : Contract A) (k : A -> Contract B) : Contract B :=
  fun st =>
    match c st with
    | (inl e, st') => (inl e, st')
    | (inr a, st') => k a st'
    end.

Notation "'do' x <- c ; k" := (bind c (fun x => k))
  (at level 10, x name, c at level 100, k at level 200).
Notation "'do_' c ; k" := (bind c (fun _ => k))
  (at level 10, c at level 100, k at level 200).

(** [StoredU256.value] (sub-pointer [EMPTY_POINTER]) and [StoredAddress.value]. *)
Definition value (p : Pointer) : Contract N :=
  fun st => (inr (sload p 0 st), st).

Definition set_value (p : Pointer) (v : N) : Contract unit :=
  fun st => (inr tt, sstore p 0 v st).

(** [StoredMapU256.get] / [set] and [AddressMemoryMap.get] / [set]. *)
Definition get (p : Pointer) (k : N) : Contract N :=
  fun st => (inr (sload p k st), st).

Definition set (p : Pointer) (k v : N) : Contract unit :=
  fun st => (inr tt, sstore p k v st).

Definition emitEvent (e : NetEvent) : Contract unit :=
  fun st => (inr tt, append_event e st).

(** ** SafeMath *)

(** Modelled from the spec: [SafeMath] belongs to the runtime package,
    which is not among the sources.  The accounting addition must fail the
    whole call on overflow rather than wrap or saturate; it is taken here
    as the runtime computes it, the wrapping sum rejected when it falls
    below the first operand ([SafeMath_add_spec] below shows that this is
    the exact sum, or a revert when the sum does not fit). *)
Module SafeMath.
Definition add (a b : N) : Contract N :=
  let c := u256.add a b in
  if u256.lt c a then throw "SafeMath: addition overflow" else ret c.
End SafeMath.

(** ** The execution environment *)

(** The three calldata layouts the marketplace sends to an OP721
    collection: a selector followed by its arguments. *)
Inductive Calldata : Type :=
| ownerOfCalldata (tokenId : N)
| approvalCalldata (owner operator : Address)
| transferCalldata (from to : Address) (tokenId : N).

(** The response buffer of a call, through the two reads the contract
    performs on it. *)
Record BytesReader : Type := mkBytesReader {
  readAddress : Address;
  readBoolean : bool
}.

Record CallResult : Type := mkCallResult {
  success : bool;
  data : BytesReader
}.

(** [Blockchain.tx.sender], the deployer checked by [onlyDeployer],
    [this.address] and [Blockchain.call].  Within one transaction a call
    is a function of the collection and the calldata, and the collection
    does not call back into the marketplace while it answers. *)
Record Blockchain : Type := mkBlockchain {
  tx_sender : Address;
  contractDeployer : Address;
  contractAddress : Address;
  call : Address -> Calldata -> CallResult
}.

(** ** The contract *)

Definition BPS_DENOMINATOR : N := u256.fromU32 10000.
Definition MAX_ROYALTY_BPS : N := u256.fromU32 1000.
Definition MAX_PLATFORM_FEE_BPS : N := u256.fromU32 500.
Definition ACTIVE : N := u256.One.
Definition INACTIVE : N := u256.Zero.

Section NFTMarketplace.
Variable chain : Blockchain.

(** Modelled from the spec: [onlyDeployer] is inherited from the runtime's
    [OP_NET] base class, which is not among the sources.  An
    administrative call fails unless its caller is the deployer. *)
Definition onlyDeployer (caller : Address) : Contract unit :=
  if negb (equals (contractDeployer chain) caller)
  then throw "Only deployer can call this method"
  else ret tt.

Definition onDeployment (feeRecipient : Address) (feeBps : N)
    : Contract unit :=
  if isZero feeRecipient then throw "Invalid fee recipient" else
  if u256.gt feeBps MAX_PLATFORM_FEE_BPS then throw "Fee exceeds maximum" else
  do_ set_value platformFeeRecipientPointer feeRecipient;
  do_ set_value platformFeeBpsPointer feeBps;
  do_ set_value nextListingIdPointer u256.One;
  set_value nextBidIdPointer u256.One.

Definition verifyOwnership (collection : Address) (tokenId : N)
    (expectedOwner : Address) : Contract unit :=
  let result := call chain collection (ownerOfCalldata tokenId) in
  if negb (success result) then throw "ownerOf call failed" else
  let ownerAddress := readAddress (data result) in
  if negb (equals ownerAddress expectedOwner)
  then throw "Caller is not the token owner"
  else ret tt.

Definition verifyApproval (collection owner : Address) : Contract unit :=
  let result :=
    call chain collection (approvalCalldata owner (contractAddress chain)) in
  if negb (success result) then throw "isApprovedForAll call failed" else
  let approved := readBoolean (data result) in
  if negb approved then throw "Marketplace not approved for transfers"
  else ret tt.

Definition executeNFTTransfer (collection from to : Address) (tokenId : N)
    : Contract unit :=
  let result := call chain collection (transferCalldata from to tokenId) in
  if negb (success result) then throw "NFT transfer failed" else ret tt.

Definition requireActiveListing (listingId : N) : Contract unit :=
  do currentNextId <- value nextListingIdPointer;
  if u256.ge listingId currentNextId || u256.eq listingId u256.Zero
  then throw "Listing does not exist" else
  do active <- get listingActivePointer listingId;
  if u256.eq active INACTIVE then throw "Listing is not active" else ret tt.

Definition requireActiveBid (bidId : N) : Contract unit :=
  do currentNextId <- value nextBidIdPointer;
  if u256.ge bidId currentNextId || u256.eq bidId u256.Zero
  then throw "Bid does not exist" else
  do active <- get bidActivePointer bidId;
  if u256.eq active INACTIVE then throw "Bid is not active" else ret tt.

Definition emitListingCreated (listingId : N) (collection : Address)
    (tokenId : N) (seller : Address) (price : N) : Contract unit :=
  emitEvent (ListingCreatedEvent listingId collection tokenId seller price).

Definition emitListingCancelled (listingId : N) : Contract unit :=
  emitEvent (ListingCancelledEvent listingId).

Definition emitListingSold (listingId : N) (buyer : Address) (price : N)
    : Contract unit :=
  emitEvent (ListingSoldEvent listingId buyer price).

Definition emitBidPlaced (bidId : N) (collection : Address) (tokenId : N)
    (bidder : Address) (amount : N) : Contract unit :=
  emitEvent (BidPlacedEvent bidId collection tokenId bidder amount).

Definition emitBidCancelled (bidId : N) : Contract unit :=
  emitEvent (BidCancelledEvent bidId).

Definition emitBidAccepted (bidId : N) (seller : Address) : Contract unit :=
  emitEvent (BidAcceptedEvent bidId seller).

Definition emitCollectionRegistered (collection : Address) (royaltyBps : N)
    : Contract unit :=
  emitEvent (CollectionRegisteredEvent collection royaltyBps).

Definition listNFT (collectionAddr : Address) (tokenId price : N)
    : Contract BytesWriter :=
  let sender := tx_sender chain in
  if isZero collectionAddr then throw "Invalid collection address" else
  if u256.eq price u256.Zero then throw "Price must be greater than zero" else
  do_ verifyOwnership collectionAddr tokenId sender;
  do_ verifyApproval collectionAddr sender;
  do listingId <- value nextListingIdPointer;
  do nextId <- SafeMath.add listingId u256.One;
  do_ set_value nextListingIdPointer nextId;
  do_ set listingCollectionPointer listingId (addressToU256 collectionAddr);
  do_ set listingTokenIdPointer listingId tokenId;
  do_ set listingSellerPointer listingId (addressToU256 sender);
  do_ set listingPricePointer listingId price;
  do_ set listingActivePointer listingId ACTIVE;
  do listings <- value totalListingsPointer;
  do listings' <- SafeMath.add listings u256.One;
  do_ set_value totalListingsPointer listings';
  do_ emitListingCreated listingId collectionAddr tokenId sender price;
  ret [writeU256 listingId].

Definition cancelListing (listingId : N) : Contract BytesWriter :=
  let sender := tx_sender chain in
  do_ requireActiveListing listingId;
  do sellerU256 <- get listingSellerPointer listingId;
  let seller := u256ToAddress sellerU256 in
  if negb (equals sender seller) then throw "Only seller can cancel" else
  do_ set listingActivePointer listingId INACTIVE;
  do_ emitListingCancelled listingId;
  ret [writeBoolean true].

Definition buyNFT (listingId : N) : Contract BytesWriter :=
  let buyer := tx_sender chain in
  do_ requireActiveListing listingId;
  do collectionU256 <- get listingCollectionPointer listingId;
  let collectionAddr := u256ToAddress collectionU256 in
  do tokenId <- get listingTokenIdPointer listingId;
  do sellerU256 <- get listingSellerPointer listingId;
  let seller := u256ToAddress sellerU256 in
  do price <- get listingPricePointer listingId;
  if equals buyer seller then throw "Buyer cannot be seller" else
  do_ set listingActivePointer listingId INACTIVE;
  do volume <- value totalVolumePointer;
  do volume' <- SafeMath.add volume price;
  do_ set_value totalVolumePointer volume';
  do_ executeNFTTransfer collectionAddr seller buyer tokenId;
  do_ emitListingSold listingId buyer price;
  ret [writeBoolean true].

Definition placeBid (collectionAddr : Address) (tokenId bidAmountSatoshis : N)
    : Contract BytesWriter :=
  let sender := tx_sender chain in
  if isZero collectionAddr then throw "Invalid collection address" else
  if u256.eq bidAmountSatoshis u256.Zero
  then throw "Bid amount must be greater than zero" else
  do bidId <- value nextBidIdPointer;
  do nextId <- SafeMath.add bidId u256.One;
  do_ set_value nextBidIdPointer nextId;
  do_ set bidCollectionPointer bidId (addressToU256 collectionAddr);
  do_ set bidTokenIdPointer bidId tokenId;
  do_ set bidBidderPointer bidId (addressToU256 sender);
  do_ set bidAmountPointer bidId bidAmountSatoshis;
  do_ set bidActivePointer bidId ACTIVE;
  do_ emitBidPlaced bidId collectionAddr tokenId sender bidAmountSatoshis;
  ret [writeU256 bidId].

Definition cancelBid (bidId : N) : Contract BytesWriter :=
  let sender := tx_sender chain in
  do_ requireActiveBid bidId;
  do bidderU256 <- get bidBidderPointer bidId;
  let bidder := u256ToAddress bidderU256 in
  if negb (equals sender bidder) then throw "Only bidder can cancel" else
  do_ set bidActivePointer bidId INACTIVE;
  do_ emitBidCancelled bidId;
  ret [writeBoolean true].

Definition acceptBid (bidId : N) : Contract BytesWriter :=
  let sender := tx_sender chain in
  do_ requireActiveBid bidId;
  do collectionU256 <- get bidCollectionPointer bidId;
  let collectionAddr := u256ToAddress collectionU256 in
  do tokenId <- get bidTokenIdPointer bidId;
  do bidderU256 <- get bidBidderPointer bidId;
  let bidder := u256ToAddress bidderU256 in
  do amount <- get bidAmountPointer bidId;
  do_ verifyOwnership collectionAddr tokenId sender;
  do_ set bidActivePointer bidId INACTIVE;
  do volume <- value totalVolumePointer;
  do volume' <- SafeMath.add volume amount;
  do_ set_value totalVolumePointer volume';
  do_ executeNFTTransfer collectionAddr sender bidder tokenId;
  do_ emitBidAccepted bidId sender;
  ret [writeBoolean true].

Definition registerCollection (collectionAddr : Address) (royaltyBps : N)
    (royaltyRecipient : Address) : Contract BytesWriter :=
  do_ onlyDeployer (tx_sender chain);
  if isZero collectionAddr then throw "Invalid collection address" else
  if u256.gt royaltyBps MAX_ROYALTY_BPS
  then throw "Royalty exceeds maximum 10%" else
  if isZero royaltyRecipient then throw "Invalid royalty recipient" else
  do_ set collectionRegisteredPointer collectionAddr u256.One;
  do_ set collectionRoyaltyBpsPointer collectionAddr royaltyBps;
  let collectionKey := addressToU256 collectionAddr in
  do_ set collectionRoyaltyRecipientPointer collectionKey
        (addressToU256 royaltyRecipient);
  do_ emitCollectionRegistered collectionAddr royaltyBps;
  ret [writeBoolean true].

Definition setPlatformFee (newFeeBps : N) : Contract BytesWriter :=
  do_ onlyDeployer (tx_sender chain);
  if u256.gt newFeeBps MAX_PLATFORM_FEE_BPS
  then throw "Fee exceeds maximum 5%" else
  do_ set_value platformFeeBpsPointer newFeeBps;
  ret [writeBoolean true].

Definition setPlatformFeeRecipient (newRecipient : Address)
    : Contract BytesWriter :=
  do_ onlyDeployer (tx_sender chain);
  if isZero newRecipient then throw "Invalid recipient address" else
  do_ set_value platformFeeRecipientPointer newRecipient;
  ret [writeBoolean true].

Definition updateRoyalty (collectionAddr : Address) (newBps : N)
    (newRecipient : Address) : Contract BytesWriter :=
  do_ onlyDeployer (tx_sender chain);
  do isRegistered <- get collectionRegisteredPointer collectionAddr;
  if u256.eq isRegistered u256.Zero
  then throw "Collection not registered" else
  if u256.gt newBps MAX_ROYALTY_BPS
  then throw "Royalty exceeds maximum 10%" else
  if isZero newRecipient then throw "Invalid royalty recipient" else
  do_ set collectionRoyaltyBpsPointer collectionAddr newBps;
  let collectionKey := addressToU256 collectionAddr in
  do_ set collectionRoyaltyRecipientPointer collectionKey
        (addressToU256 newRecipient);
  ret [writeBoolean true].

Definition getListing (listingId : N) : Contract BytesWriter :=
  do collectionU256 <- get listingCollectionPointer listingId;
  do tokenId <- get listingTokenIdPointer listingId;
  do sellerU256 <- get listingSellerPointer listingId;
  do price <- get listingPricePointer listingId;
  do active <- get listingActivePointer listingId;
  ret [writeU256 collectionU256; writeU256 tokenId; writeU256 sellerU256;
       writeU256 price; writeU256 active].

Definition getBid (bidId : N) : Contract BytesWriter :=
  do collectionU256 <- get bidCollectionPointer bidId;
  do tokenId <- get bidTokenIdPointer bidId;
  do bidderU256 <- get bidBidderPointer bidId;
  do amount <- get bidAmountPointer bidId;
  do active <- get bidActivePointer bidId;
  ret [writeU256 collectionU256; writeU256 tokenId; writeU256 bidderU256;
       writeU256 amount; writeU256 active].

Definition getCollectionInfo (collectionAddr : Address)
    : Contract BytesWriter :=
  do isRegistered <- get collectionRegisteredPointer collectionAddr;
  do royaltyBps <- get collectionRoyaltyBpsPointer collectionAddr;
  let collectionKey := addressToU256 collectionAddr in
  do recipientU256 <- get collectionRoyaltyRecipientPointer collectionKey;
  ret [writeU256 isRegistered; writeU256 royaltyBps; writeU256 recipientU256].

Definition getPlatformInfo : Contract BytesWriter :=
  do feeBps <- value platformFeeBpsPointer;
  do recipient <- value platformFeeRecipientPointer;
  do volume <- value totalVolumePointer;
  do listings <- value totalListingsPointer;
  ret [writeU256 feeBps; writeAddress recipient; writeU256 volume;
       writeU256 listings].

End NFTMarketplace.

(** ** Dispatch *)

(** A method selector together with the arguments decoded from its
    calldata: the cases of the [switch] in [execute].  The default case
    defers to the base class and is not part of the marketplace. *)
Inductive Method : Type :=
| listNFTSelector (collection : Address) (tokenId price : N)
| cancelListingSelector (listingId : N)
| buyNFTSelector (listingId : N)
| placeBidSelector (collection : Address) (tokenId amount : N)
| cancelBidSelector (bidId : N)
| acceptBidSelector (bidId : N)
| registerCollectionSelector (collection : Address) (royaltyBps : N)
    (royaltyRecipient : Address)
| setPlatformFeeSelector (newFeeBps : N)
| setPlatformFeeRecipientSelector (newRecipient : Address)
| updateRoyaltySelector (collection : Address) (newBps : N)
    (newRecipient : Address)
| getListingSelector (listingId : N)
| getBidSelector (bidId : N)
| getCollectionInfoSelector (collection : Address)
| getPlatformInfoSelector.

Definition execute (chain : Blockchain) (method : Method)
    : Contract BytesWriter :=
  match method with
  | listNFTSelector c t p => listNFT chain c t p
  | cancelListingSelector i => cancelListing chain i
  | buyNFTSelector i => buyNFT chain i
  | placeBidSelector c t a => placeBid chain c t a
  | cancelBidSelector i => cancelBid chain i
  | acceptBidSelector i => acceptBid chain i
  | registerCollectionSelector c r a => registerCollection chain c r a
  | setPlatformFeeSelector f => setPlatformFee chain f
  | setPlatformFeeRecipientSelector a => setPlatformFeeRecipient chain a
  | updateRoyaltySelector c r a => updateRoyalty chain c r a
  | getListingSelector i => getListing i
  | getBidSelector i => getBid i
  | getCollectionInfoSelector c => getCollectionInfo c
  | getPlatformInfoSelector => getPlatformInfo
  end.

(** A transaction: the environment it runs in and the method it calls. *)
Record Tx : Type := mkTx {
  tx_chain : Blockchain;
  tx_method : Method
}.

Definition apply_tx (tx : Tx) (st : State) : (Revert + BytesWriter) * State :=
  execute (tx_chain tx) (tx_method tx) st.

(** The state a sequence of transactions leaves behind, whatever each of
    them returned. *)
Definition run (txs : list Tx) (st : State) : State :=
  foldl (fun s tx => snd (apply_tx tx s)) st txs.

(** The contract after its deployment and any sequence of transactions. *)
Inductive reachable : State -> Prop :=
| reachable_deploy feeRecipient feeBps st :
    onDeployment feeRecipient feeBps emptyState = (inr tt, st) ->
    reachable st
| reachable_step tx st :
    reachable st -> reachable (snd (apply_tx tx st)).

(** ** Named views of the storage *)

Definition nextListingId (st : State) : N := sload nextListingIdPointer 0 st.
Definition nextBidId (st : State) : N := sload nextBidIdPointer 0 st.
Definition totalVolume (st : State) : N := sload totalVolumePointer 0 st.
Definition totalListings (st : State) : N := sload totalListingsPointer 0 st.
Definition platformFeeBps (st : State) : N := sload platformFeeBpsPointer 0 st.
Definition collectionRoyaltyBps (st : State) (collection : Address) : N :=
  sload collectionRoyaltyBpsPointer collection st.
Definition listingActive (st : State) (id : N) : N :=
  sload listingActivePointer id st.
Definition listingSeller (st : State) (id : N) : Address :=
  u256ToAddress (sload listingSellerPointer id st).
Definition listingPrice (st : State) (id : N) : N :=
  sload listingPricePointer id st.
Definition bidActive (st : State) (id : N) : N := sload bidActivePointer id st.
Definition bidAmount (st : State) (id : N) : N := sload bidAmountPointer id st.

(** The condition [requireActiveListing] lets through. *)
Definition active_listing (st : State) (id : N) : Prop :=
  id <> 0 /\ id < nextListingId st /\ listingActive st id <> INACTIVE.

Definition active_bid (st : State) (id : N) : Prop :=
  id <> 0 /\ id < nextBidId st /\ bidActive st id <> INACTIVE.

(** A listing (bid) that exists and whose flag is off. *)
Definition deactivated_listing (st : State) (id : N) : Prop :=
  id < nextListingId st /\ listingActive st id = INACTIVE.

Definition deactivated_bid (st : State) (id : N) : Prop :=
  id < nextBidId st /\ bidActive st id = INACTIVE.

(** ** Remote answers *)

(** What [verifyOwnership] and [verifyApproval] accept: the call succeeded
    and reported the expected owner, respectively an approval. *)
Definition ownership_confirmed (chain : Blockchain) (collection : Address)
    (tokenId : N) (expectedOwner : Address) : bool :=
  let result := call chain collection (ownerOfCalldata tokenId) in
  success result && equals (readAddress (data result)) expectedOwner.

Definition approval_confirmed (chain : Blockchain) (collection owner : Address)
    : bool :=
  let result :=
    call chain collection (approvalCalldata owner (contractAddress chain)) in
  success result && readBoolean (data result).

(** Two environments with the same caller whose collections report the
    same outcome for every transfer call; what they answer to [ownerOf]
    and [isApprovedForAll] is left free. *)
Definition same_transfer_responses (chain1 chain2 : Blockchain) : Prop :=
  tx_sender chain1 = tx_sender chain2 /\
  forall collection from to tokenId,
    success (call chain1 collection (transferCalldata from to tokenId)) =
    success (call chain2 collection (transferCalldata from to tokenId)).

(** ** Trades and volume *)

Definition is_trade (m : Method) : bool :=
  match m with
  | buyNFTSelector _ | acceptBidSelector _ => true
  | _ => false
  end.

(** The price a trade settles at, read before the trade runs. *)
Definition settlement (m : Method) (st : State) : N :=
  match m with
  | buyNFTSelector id => listingPrice st id
  | acceptBidSelector id => bidAmount st id
  | _ => 0
  end.

(** A sequence of transactions none of which reverts. *)
Fixpoint run_ok (txs : list Tx) (st : State) : option State :=
  match txs with
  | [] => Some st
  | tx :: rest =>
      match apply_tx tx st with
      | (inr _, st') => run_ok rest st'
      | (inl _, _) => None
      end
  end.

(** The settlement values of the trades of a sequence, in order. *)
Fixpoint settlements (txs : list Tx) (st : State) : list N :=
  match txs with
  | [] => []
  | tx :: rest =>
      (if is_trade (tx_method tx) then [settlement (tx_method tx) st] else [])
      ++ settlements rest (snd (apply_tx tx st))
  end.

Definition sum (l : list N) : N := foldr N.add 0 l.

(** Every [readU256] of the calldata yields a 256-bit word. *)
Definition calldata_u256 (m : Method) : Prop :=
  match m with
  | listNFTSelector _ tokenId price => is_u256 tokenId /\ is_u256 price
  | placeBidSelector _ tokenId amount => is_u256 tokenId /\ is_u256 amount
  | cancelListingSelector id | buyNFTSelector id | cancelBidSelector id
  | acceptBidSelector id | getListingSelector id | getBidSelector id =>
      is_u256 id
  | registerCollectionSelector _ bps _ | updateRoyaltySelector _ bps _
  | setPlatformFeeSelector bps => is_u256 bps
  | setPlatformFeeRecipientSelector _ | getCollectionInfoSelector _
  | getPlatformInfoSelector => True
  end.

(** ** Emitted events *)

(** The events a successful call of each method appends to the log. *)
Definition emitted (chain : Blockchain) (m : Method) (st : State)
    : list NetEvent :=
  match m with
  | listNFTSelector collection tokenId price =>
      [ListingCreatedEvent (nextListingId st) collection tokenId
         (tx_sender chain) price]
  | cancelListingSelector id => [ListingCancelledEvent id]
  | buyNFTSelector id =>
      [ListingSoldEvent id (tx_sender chain) (listingPrice st id)]
  | placeBidSelector collection tokenId amount =>
      [BidPlacedEvent (nextBidId st) collection tokenId (tx_sender chain)
         amount]
  | cancelBidSelector id => [BidCancelledEvent id]
  | acceptBidSelector id => [BidAcceptedEvent id (tx_sender chain)]
  | registerCollectionSelector collection royaltyBps _ =>
      [CollectionRegisteredEvent collection royaltyBps]
  | setPlatformFeeSelector _ | setPlatformFeeRecipientSelector _
  | updateRoyaltySelector _ _ _ | getListingSelector _ | getBidSelector _
  | getCollectionInfoSelector _ | getPlatformInfoSelector => []
  end.

(** The methods that write to the storage. *)
Definition is_mutating (m : Method) : bool :=
  match m with
  | getListingSelector _ | getBidSelector _ | getCollectionInfoSelector _
  | getPlatformInfoSelector => false
  | _ => true
  end.

(** Only [setPlatformFee] writes the platform fee rate, and only
    [registerCollection] and [updateRoyalty] write a royalty rate. *)
Definition writes_fee (m : Method) : bool :=
  match m with setPlatformFeeSelector _ => true | _ => false end.

Definition writes_royalty (m : Method) : bool :=
  match m with
  | registerCollectionSelector _ _ _ | updateRoyaltySelector _ _ _ => true
  | _ => false
  end.

(** ** Invariants of the storage *)

(** Stored prices and bid amounts are 256-bit words. *)
Definition prices_u256 (st : State) : Prop :=
  forall id, is_u256 (listingPrice st id) /\ is_u256 (bidAmount st id).

(** The rate bounds of the registry and of the platform. *)
Definition rates_bounded (st : State) : Prop :=
  platformFeeBps st <= 500 /\
  forall collection, collectionRoyaltyBps st collection <= 1000.

(** No listing field is stored outside the range of allocated ids. *)
Definition listings_in_range (st : State) : Prop :=
  1 <= nextListingId st /\
  forall id, id = 0 \/ nextListingId st <= id ->
    sload listingCollectionPointer id st = 0 /\
    sload listingTokenIdPointer id st = 0 /\
    sload listingSellerPointer id st = 0 /\
    sload listingPricePointer id st = 0 /\
    sload listingActivePointer id st = 0.

(** ** The trade a method settles *)

(** The active flag of the listing or bid a trade is about. *)
Definition trade_active (m : Method) (st : State) : N :=
  match m with
  | buyNFTSelector id => listingActive st id
  | acceptBidSelector id => bidActive st id
  | _ => ACTIVE
  end.

(** The transfer call a trade issues, from the stored record. *)
Definition trade_transfer (chain : Blockchain) (m : Method) (st : State)
    : option CallResult :=
  match m with
  | buyNFTSelector id =>
      Some (call chain (u256ToAddress (sload listingCollectionPointer id st))
              (transferCalldata (listingSeller st id) (tx_sender chain)
                 (sload listingTokenIdPointer id st)))
  | acceptBidSelector id =>
      Some (call chain (u256ToAddress (sload bidCollectionPointer id st))
              (transferCalldata (tx_sender chain)
                 (u256ToAddress (sload bidBidderPointer id st))
                 (sload bidTokenIdPointer id st)))
  | _ => None
  end.

(** ** A sample deployment *)

(** A collection that answers every call the same way. *)
Definition collection_stub (owner : Address) (approved transferred : bool)
    (collection : Address) (calldata : Calldata) : CallResult :=
  match calldata with
  | ownerOfCalldata _ => mkCallResult true (mkBytesReader owner false)
  | approvalCalldata _ _ => mkCallResult true (mkBytesReader 0 approved)
  | transferCalldata _ _ _ => mkCallResult transferred (mkBytesReader 0 false)
  end.

Definition admin : Address := 99.
Definition marketplace : Address := 50.
Definition alice : Address := 11.
Definition bob : Address := 12.
Definition collectionC : Address := 77.

Definition chain_of (sender owner : Address) (approved transferred : bool)
    : Blockchain :=
  mkBlockchain sender admin marketplace
    (collection_stub owner approved transferred).

(** Deployed with a fee of 2.5%. *)
Definition deployed : State := snd (onDeployment admin 250 emptyState).

(** Alice has listed token 7 of collection C at price 1000. *)
Definition alice_lists : Tx :=
  mkTx (chain_of alice alice true true) (listNFTSelector collectionC 7 1000).

Definition listed : State := run [alice_lists] deployed.

(** Bob has then bid 900 on the same token. *)
Definition bob_bids : Tx :=
  mkTx (chain_of bob alice true true) (placeBidSelector collectionC 7 900).

Definition listed_and_bid : State := run [alice_lists; bob_bids] deployed.

(** Bob then buys listing 1, and Alice accepts bid 1. *)
Definition trades : list Tx :=
  [alice_lists; bob_bids;
   mkTx (chain_of bob alice true true) (buyNFTSelector 1);
   mkTx (chain_of alice alice true true) (acceptBidSelector 1)].

Definition traded : State := run trades deployed.

(** Bob buys listing 1, or Alice accepts bid 1, while the collection
    refuses the transfer. *)
Definition buy_failed : State :=
  snd (buyNFT (chain_of bob alice true false) 1 listed_and_bid).

Definition accept_failed : State :=
  snd (acceptBid (chain_of alice alice true false) 1 listed_and_bid).

(** The deployer, and the contract after the deployer has registered
    collection C with a royalty of 2.5%. *)
Definition admin_chain : Blockchain := chain_of admin alice true true.

Definition registered : State :=
  snd (registerCollection admin_chain collectionC 250 alice deployed).

(** ** Further views and invariants *)

Definition listingCollection (st : State) (id : N) : Address :=
  u256ToAddress (sload listingCollectionPointer id st).
Definition listingTokenId (st : State) (id : N) : N :=
  sload listingTokenIdPointer id st.
Definition bidCollection (st : State) (id : N) : Address :=
  u256ToAddress (sload bidCollectionPointer id st).
Definition bidTokenId (st : State) (id : N) : N :=
  sload bidTokenIdPointer id st.
Definition bidBidder (st : State) (id : N) : Address :=
  u256ToAddress (sload bidBidderPointer id st).
Definition collectionRegistered (st : State) (collection : Address) : N :=
  sload collectionRegisteredPointer collection st.
Definition collectionRoyaltyRecipient (st : State) (collection : Address)
    : Address :=
  u256ToAddress
    (sload collectionRoyaltyRecipientPointer (addressToU256 collection) st).
Definition platformFeeRecipient (st : State) : Address :=
  sload platformFeeRecipientPointer 0 st.

(** The terms of a listing and of a bid: everything but the active flag. *)
Definition listing_terms (st : State) (id : N) : Address * N * Address * N :=
  (listingCollection st id, listingTokenId st id, listingSeller st id,
   listingPrice st id).

Definition bid_terms (st : State) (id : N) : Address * N * Address * N :=
  (bidCollection st id, bidTokenId st id, bidBidder st id, bidAmount st id).

(** The whole listing ledger and the whole bid ledger, as functions of
    the id, together with their counters. *)
Definition same_listings (st st' : State) : Prop :=
  nextListingId st' = nextListingId st /\
  totalListings st' = totalListings st /\
  forall id, listing_terms st' id = listing_terms st id /\
             listingActive st' id = listingActive st id.

Definition same_bids (st st' : State) : Prop :=
  nextBidId st' = nextBidId st /\
  forall id, bid_terms st' id = bid_terms st id /\
             bidActive st' id = bidActive st id.

Definition is_listing_method (m : Method) : bool :=
  match m with
  | listNFTSelector _ _ _ | cancelListingSelector _ | buyNFTSelector _ => true
  | _ => false
  end.

Definition is_bid_method (m : Method) : bool :=
  match m with
  | placeBidSelector _ _ _ | cancelBidSelector _ | acceptBidSelector _ => true
  | _ => false
  end.

(** The methods whose body contains a [Blockchain.call]. *)
Definition calls_out (m : Method) : bool :=
  match m with
  | listNFTSelector _ _ _ | buyNFTSelector _ | acceptBidSelector _ => true
  | _ => false
  end.

Definition is_admin_method (m : Method) : bool :=
  match m with
  | registerCollectionSelector _ _ _ | setPlatformFeeSelector _
  | setPlatformFeeRecipientSelector _ | updateRoyaltySelector _ _ _ => true
  | _ => false
  end.

(** No bid field is stored outside the range of allocated ids. *)
Definition bids_in_range (st : State) : Prop :=
  1 <= nextBidId st /\
  forall id, id = 0 \/ nextBidId st <= id ->
    sload bidCollectionPointer id st = 0 /\
    sload bidTokenIdPointer id st = 0 /\
    sload bidBidderPointer id st = 0 /\
    sload bidAmountPointer id st = 0 /\
    sload bidActivePointer id st = 0.

(** Every allocated listing has a collection and a price, every allocated
    bid a collection and an amount. *)
Definition records_valid (st : State) : Prop :=
  (forall id, id <> 0 -> id < nextListingId st ->
     listingCollection st id <> 0 /\ listingPrice st id <> 0) /\
  (forall id, id <> 0 -> id < nextBidId st ->
     bidCollection st id <> 0 /\ bidAmount st id <> 0).

(** The registry: a collection is flagged 0 or 1; an unregistered one has
    no rate and no recipient, a registered one has a recipient. *)
Definition registry_consistent (st : State) : Prop :=
  forall collection,
    (collectionRegistered st collection = 0 /\
     collectionRoyaltyBps st collection = 0 /\
     collectionRoyaltyRecipient st collection = 0) \/
    (collectionRegistered st collection = 1 /\
     collection <> 0 /\
     collectionRoyaltyRecipient st collection <> 0).

(** The listing count is the number of ids handed out. *)
Definition listing_count_consistent (st : State) : Prop :=
  1 <= nextListingId st /\ nextListingId st < U256_MODULUS /\
  totalListings st + 1 = nextListingId st.

(** One list is the beginning of another. *)
Definition events_extend (st st' : State) : Prop :=
  exists new, events st' = (events st ++ new)%list.

(** Counters and totals of [st'] are at least those of [st]. *)
Definition grown (st st' : State) : Prop :=
  nextListingId st <= nextListingId st' /\
  nextBidId st <= nextBidId st' /\
  totalListings st <= totalListings st' /\
  totalVolume st <= totalVolume st'.


(** Bob has bought listing 1. *)
Definition sold : State :=
  snd (buyNFT (chain_of bob alice true true) 1 listed).

(** Alice has listed a second token after Bob's bid. *)
Definition relisted : State :=
  snd (listNFT (chain_of alice alice true true) collectionC 8 500
         (run [bob_bids] listed)).

(** The listed state with the volume one short of the largest word. *)
Definition nearly_full : State :=
  sstore totalVolumePointer 0 (U256_MODULUS - 1) listed.

(** ** Storage lemmas *)

Lemma sload_sstore_eq p k v st : sload p k (sstore p k v st) = v.
Proof. unfold sload, sstore; simpl. by rewrite lookup_insert_eq. Qed.

Lemma sload_sstore_ptr_ne p p' k k' v st :
  p' <> p -> sload p k (sstore p' k' v st) = sload p k st.
Proof.
  intros Hp. unfold sload, sstore; simpl.
  rewrite lookup_insert_ne; [done | congruence].
Qed.

Lemma sload_sstore_key_ne p p' k k' v st :
  k' <> k -> sload p k (sstore p' k' v st) = sload p k st.
Proof.
  intros Hk. unfold sload, sstore; simpl.
  rewrite lookup_insert_ne; [done | congruence].
Qed.

Lemma sload_append_event p k e st : sload p k (append_event e st) = sload p k st.
Proof. reflexivity. Qed.

Lemma events_append_event e st :
  events (append_event e st) = (events st ++ [e])%list.
Proof. reflexivity. Qed.

Lemma events_sstore p k v st : events (sstore p k v st) = events st.
Proof. reflexivity. Qed.

Lemma sload_emptyState p k : sload p k emptyState = 0.
Proof. reflexivity. Qed.

(** ** Arithmetic of [SafeMath.add] *)

Lemma U256_MODULUS_pos : 0 < U256_MODULUS.
Proof. reflexivity. Qed.

Lemma u256_add_small a b : a + b < U256_MODULUS -> u256.add a b = a + b.
Proof. intros H. unfold u256.add. by apply N.mod_small. Qed.

Lemma u256_add_wrapped a b :
  b < U256_MODULUS -> U256_MODULUS <= a + b -> u256.add a b < a.
Proof.
  intros Hb Hab. unfold u256.add.
  pose proof U256_MODULUS_pos as HM.
  destruct (N.lt_ge_cases a U256_MODULUS) as [Ha | Ha].
  - assert (Hsub : (a + b) mod U256_MODULUS = a + b - U256_MODULUS).
    { symmetry. apply (N.mod_unique _ _ 1); lia. }
    rewrite Hsub. lia.
  - pose proof (N.mod_upper_bound (a + b) U256_MODULUS). lia.
Qed.

(** [SafeMath.add] is exact addition, and a revert exactly when the sum
    does not fit in 256 bits. *)
Lemma SafeMath_add_spec a b st :
  b < U256_MODULUS ->
  SafeMath.add a b st =
    if a + b <? U256_MODULUS then (inr (a + b), st)
    else (inl (mkRevert "SafeMath: addition overflow"), st).
Proof.
  intros Hb. unfold SafeMath.add, u256.lt.
  destruct (N.ltb_spec (a + b) U256_MODULUS) as [Hs | Hs].
  - rewrite (u256_add_small _ _ Hs).
    destruct (N.ltb_spec (a + b) a); [lia | reflexivity].
  - pose proof (u256_add_wrapped a b Hb Hs) as Hw.
    destruct (N.ltb_spec (u256.add a b) a); [reflexivity | lia].
Qed.

Lemma SafeMath_add_state {a b st r st'} :
  SafeMath.add a b st = (r, st') -> st' = st.
Proof.
  unfold SafeMath.add. destruct (u256.lt _ _); unfold throw, ret; congruence.
Qed.

Lemma SafeMath_add_One a st :
  SafeMath.add a u256.One st =
    if a + 1 <? U256_MODULUS then (inr (a + 1), st)
    else (inl (mkRevert "SafeMath: addition overflow"), st).
Proof. apply SafeMath_add_spec. reflexivity. Qed.

Lemma MAX_ROYALTY_BPS_eq : MAX_ROYALTY_BPS = 1000.
Proof. reflexivity. Qed.

Lemma MAX_PLATFORM_FEE_BPS_eq : MAX_PLATFORM_FEE_BPS = 500.
Proof. reflexivity. Qed.

(** ** Proof automation *)

Ltac unfold_monad :=
  unfold bind, ret, throw, value, get, set, set_value, emitEvent in *.

Ltac unfold_helpers :=
  unfold requireActiveListing, requireActiveBid, verifyOwnership,
    verifyApproval, executeNFTTransfer, onlyDeployer, emitListingCreated,
    emitListingCancelled, emitListingSold, emitBidPlaced, emitBidCancelled,
    emitBidAccepted, emitCollectionRegistered in *.

Ltac unfold_methods :=
  unfold listNFT, cancelListing, buyNFT, placeBid, cancelBid, acceptBid,
    registerCollection, setPlatformFee, setPlatformFeeRecipient,
    updateRoyalty, getListing, getBid, getCollectionInfo, getPlatformInfo
    in *.

Ltac unfold_views :=
  unfold nextListingId, nextBidId, totalVolume, totalListings,
    platformFeeBps, collectionRoyaltyBps, listingActive, listingSeller,
    listingPrice, bidActive, bidAmount, addressToU256, u256ToAddress in *.

(** Split on the first condition a method tests. *)
Ltac branch :=
  match goal with
  | H : context [if ?b then _ else _] |- _ => destruct b eqn:?; simpl in H
  | |- context [if ?b then _ else _] => destruct b eqn:?; simpl
  end.

Ltac sload_simpl :=
  repeat first
    [ rewrite sload_sstore_eq
    | rewrite sload_sstore_ptr_ne by discriminate
    | rewrite sload_sstore_key_ne by lia
    | rewrite sload_append_event ].

Ltac sload_simpl_in H :=
  repeat first
    [ rewrite sload_sstore_eq in H
    | rewrite sload_sstore_ptr_ne in H by discriminate
    | rewrite sload_sstore_key_ne in H by lia
    | rewrite sload_append_event in H ].

(** Run a method symbolically inside hypothesis [H]. *)
Ltac exec_in H :=
  repeat first
    [ rewrite SafeMath_add_One in H
    | progress sload_simpl_in H
    | branch; try discriminate ].

Lemma SafeMath_add_cases a b st :
  (SafeMath.add a b st = (inr (u256.add a b), st) /\ a <= u256.add a b) \/
  SafeMath.add a b st = (inl (mkRevert "SafeMath: addition overflow"), st).
Proof.
  unfold SafeMath.add, u256.lt.
  destruct (N.ltb_spec (u256.add a b) a); [right | left]; auto.
Qed.

Lemma sload_sstore p p' k k' v st :
  sload p k (sstore p' k' v st) =
    if decide (p' = p /\ k' = k) then v else sload p k st.
Proof.
  case_decide as Hd.
  - destruct Hd as [-> ->]. apply sload_sstore_eq.
  - destruct (decide (p' = p)) as [-> | Hp].
    + apply sload_sstore_key_ne. intros ->. by apply Hd.
    + by apply sload_sstore_ptr_ne.
Qed.

(** Turn the tests a method has passed into propositions. *)
Ltac bool_to_prop :=
  unfold u256.ge, u256.gt, u256.lt, u256.eq, u256.Zero, u256.One, isZero,
    equals, INACTIVE, ACTIVE in *;
  repeat match goal with
  | H : _ || _ = false |- _ => apply orb_false_iff in H as [? ?]
  | H : negb _ = false |- _ => apply negb_false_iff in H
  | H : negb _ = true |- _ => apply negb_true_iff in H
  | H : (_ <=? _) = false |- _ => apply N.leb_gt in H
  | H : (_ <=? _) = true |- _ => apply N.leb_le in H
  | H : (_ <? _) = false |- _ => apply N.ltb_ge in H
  | H : (_ <? _) = true |- _ => apply N.ltb_lt in H
  | H : (_ =? _) = false |- _ => apply N.eqb_neq in H
  | H : (_ =? _) = true |- _ => apply N.eqb_eq in H
  end.

(** Case split on whether a read hits the slot just written. *)
Ltac sload_cases :=
  repeat
    (rewrite sload_sstore;
     let Hd := fresh "Hd" in
     case_decide as Hd;
     [ let Hp := fresh "Hp" in
       destruct Hd as [Hp ?]; try discriminate Hp; subst
     | ]);
  sload_simpl.

(** Case split on an unknown outcome of [SafeMath.add]. *)
Ltac safemath_cases :=
  match goal with
  | |- context [SafeMath.add ?a ?b ?st] =>
      let Hle := fresh "Hle" in
      destruct (SafeMath_add_cases a b st) as [[-> Hle] | ->]; simpl
  end.

(** Run a method symbolically in the goal. *)
Ltac exec :=
  repeat first
    [ rewrite SafeMath_add_One
    | safemath_cases
    | progress sload_simpl
    | branch ].

Ltac unfold_all :=
  unfold apply_tx in *; cbn [tx_chain tx_method execute] in *;
  unfold_methods; unfold_helpers; unfold_monad; unfold_views.

(** *** Deactivation is terminal *)

Lemma deactivated_listing_step tx st id :
  deactivated_listing st id -> deactivated_listing (snd (apply_tx tx st)) id.
Proof.
  unfold deactivated_listing. destruct tx as [chain m].
  intros [Hlt Hoff].
  destruct m; unfold_all; exec; simpl; sload_simpl;
    repeat (rewrite sload_sstore; case_decide); sload_simpl;
    try (split; [lia | done]).
Qed.

Lemma deactivated_bid_step tx st id :
  deactivated_bid st id -> deactivated_bid (snd (apply_tx tx st)) id.
Proof.
  unfold deactivated_bid. destruct tx as [chain m].
  intros [Hlt Hoff].
  destruct m; unfold_all; exec; simpl; sload_simpl;
    repeat (rewrite sload_sstore; case_decide); sload_simpl;
    try (split; [lia | done]).
Qed.

Lemma run_cons tx txs st : run (tx :: txs) st = run txs (snd (apply_tx tx st)).
Proof. reflexivity. Qed.

(** An invariant of every transaction is an invariant of every run. *)
Lemma run_invariant (P : State -> Prop) :
  (forall tx st, P st -> P (snd (apply_tx tx st))) ->
  forall txs st, P st -> P (run txs st).
Proof.
  intros Hstep txs. induction txs as [| tx txs IH]; intros st HP.
  - exact HP.
  - rewrite run_cons. apply IH, Hstep, HP.
Qed.

Lemma deactivated_listing_run txs st id :
  deactivated_listing st id -> deactivated_listing (run txs st) id.
Proof.
  apply (run_invariant (fun s => deactivated_listing s id)).
  intros tx s. apply deactivated_listing_step.
Qed.

Lemma deactivated_bid_run txs st id :
  deactivated_bid st id -> deactivated_bid (run txs st) id.
Proof.
  apply (run_invariant (fun s => deactivated_bid s id)).
  intros tx s. apply deactivated_bid_step.
Qed.

(** What the two guards decide. *)
Lemma requireActiveListing_spec id st :
  requireActiveListing id st =
    if u256.ge id (nextListingId st) || u256.eq id u256.Zero
    then (inl (mkRevert "Listing does not exist"), st)
    else if u256.eq (listingActive st id) INACTIVE
         then (inl (mkRevert "Listing is not active"), st)
         else (inr tt, st).
Proof.
  unfold requireActiveListing; unfold_monad; unfold_views.
  repeat branch; reflexivity.
Qed.

Lemma requireActiveBid_spec id st :
  requireActiveBid id st =
    if u256.ge id (nextBidId st) || u256.eq id u256.Zero
    then (inl (mkRevert "Bid does not exist"), st)
    else if u256.eq (bidActive st id) INACTIVE
         then (inl (mkRevert "Bid is not active"), st)
         else (inr tt, st).
Proof.
  unfold requireActiveBid; unfold_monad; unfold_views.
  repeat branch; reflexivity.
Qed.

Lemma requireActiveListing_active id st :
  active_listing st id -> requireActiveListing id st = (inr tt, st).
Proof.
  intros (Hz & Hlt & Hon). rewrite requireActiveListing_spec.
  unfold u256.ge, u256.eq, u256.Zero.
  destruct (N.leb_spec (nextListingId st) id); [lia |].
  destruct (N.eqb_spec id 0); [lia |]. simpl.
  destruct (N.eqb_spec (listingActive st id) INACTIVE); [done | reflexivity].
Qed.

Lemma requireActiveListing_ok id st st' :
  requireActiveListing id st = (inr tt, st') -> active_listing st id /\ st' = st.
Proof.
  rewrite requireActiveListing_spec. unfold u256.ge, u256.eq, u256.Zero.
  destruct (N.leb_spec (nextListingId st) id); simpl; [discriminate |].
  destruct (N.eqb_spec id 0); simpl; [discriminate |].
  destruct (N.eqb_spec (listingActive st id) INACTIVE); [discriminate |].
  intros [= <-]. unfold active_listing. auto.
Qed.

Lemma requireActiveBid_active id st :
  active_bid st id -> requireActiveBid id st = (inr tt, st).
Proof.
  intros (Hz & Hlt & Hon). rewrite requireActiveBid_spec.
  unfold u256.ge, u256.eq, u256.Zero.
  destruct (N.leb_spec (nextBidId st) id); [lia |].
  destruct (N.eqb_spec id 0); [lia |]. simpl.
  destruct (N.eqb_spec (bidActive st id) INACTIVE); [done | reflexivity].
Qed.

Lemma requireActiveBid_ok id st st' :
  requireActiveBid id st = (inr tt, st') -> active_bid st id /\ st' = st.
Proof.
  rewrite requireActiveBid_spec. unfold u256.ge, u256.eq, u256.Zero.
  destruct (N.leb_spec (nextBidId st) id); simpl; [discriminate |].
  destruct (N.eqb_spec id 0); simpl; [discriminate |].
  destruct (N.eqb_spec (bidActive st id) INACTIVE); [discriminate |].
  intros [= <-]. unfold active_bid. auto.
Qed.

Lemma requireActiveListing_deactivated id st :
  id <> 0 -> deactivated_listing st id ->
  requireActiveListing id st = (inl (mkRevert "Listing is not active"), st).
Proof.
  intros Hz [Hlt Hoff]. rewrite requireActiveListing_spec.
  unfold u256.ge, u256.eq, u256.Zero.
  destruct (N.leb_spec (nextListingId st) id); [lia |].
  destruct (N.eqb_spec id 0); [lia |]. simpl.
  rewrite Hoff. reflexivity.
Qed.

Lemma requireActiveBid_deactivated id st :
  id <> 0 -> deactivated_bid st id ->
  requireActiveBid id st = (inl (mkRevert "Bid is not active"), st).
Proof.
  intros Hz [Hlt Hoff]. rewrite requireActiveBid_spec.
  unfold u256.ge, u256.eq, u256.Zero.
  destruct (N.leb_spec (nextBidId st) id); [lia |].
  destruct (N.eqb_spec id 0); [lia |]. simpl.
  rewrite Hoff. reflexivity.
Qed.

(** *** Trades *)

Ltac exec_trade_in H Hprice :=
  repeat first
    [ rewrite (SafeMath_add_spec _ _ _ Hprice) in H
    | progress sload_simpl_in H
    | branch; try discriminate ].

Lemma buyNFT_transfer_failed chain id st st' :
  is_u256 (listingPrice st id) ->
  buyNFT chain id st = (inl (mkRevert "NFT transfer failed"), st') ->
  st' = sstore totalVolumePointer 0 (totalVolume st + listingPrice st id)
          (sstore listingActivePointer id INACTIVE st) /\
  success (call chain (u256ToAddress (sload listingCollectionPointer id st))
             (transferCalldata (listingSeller st id) (tx_sender chain)
                (sload listingTokenIdPointer id st))) = false.
Proof.
  intros Hprice H. unfold is_u256 in Hprice.
  unfold_methods; unfold_helpers; unfold_monad; unfold_views.
  exec_trade_in H Hprice.
  injection H as <-. split; [reflexivity |].
  by apply negb_true_iff.
Qed.

Lemma acceptBid_transfer_failed chain id st st' :
  is_u256 (bidAmount st id) ->
  acceptBid chain id st = (inl (mkRevert "NFT transfer failed"), st') ->
  st' = sstore totalVolumePointer 0 (totalVolume st + bidAmount st id)
          (sstore bidActivePointer id INACTIVE st) /\
  success (call chain (u256ToAddress (sload bidCollectionPointer id st))
             (transferCalldata (tx_sender chain)
                (u256ToAddress (sload bidBidderPointer id st))
                (sload bidTokenIdPointer id st))) = false.
Proof.
  intros Hprice H. unfold is_u256 in Hprice.
  unfold_methods; unfold_helpers; unfold_monad; unfold_views.
  exec_trade_in H Hprice.
  injection H as <-. split; [reflexivity |].
  by apply negb_true_iff.
Qed.

(** [buyNFT] on an active listing, branch by branch. *)
Lemma buyNFT_spec chain id st :
  active_listing st id -> is_u256 (listingPrice st id) ->
  buyNFT chain id st =
    let buyer := tx_sender chain in
    let seller := listingSeller st id in
    let price := listingPrice st id in
    let collection := u256ToAddress (sload listingCollectionPointer id st) in
    let tokenId := sload listingTokenIdPointer id st in
    if equals buyer seller
    then (inl (mkRevert "Buyer cannot be seller"), st) else
    let st1 := sstore listingActivePointer id INACTIVE st in
    if totalVolume st + price <? U256_MODULUS then
      let st2 := sstore totalVolumePointer 0 (totalVolume st + price) st1 in
      if success (call chain collection (transferCalldata seller buyer tokenId))
      then (inr [writeBoolean true],
            append_event (ListingSoldEvent id buyer price) st2)
      else (inl (mkRevert "NFT transfer failed"), st2)
    else (inl (mkRevert "SafeMath: addition overflow"), st1).
Proof.
  intros Hact Hprice. unfold buyNFT, bind at 1.
  rewrite (requireActiveListing_active _ _ Hact).
  unfold is_u256 in Hprice.
  unfold_helpers; unfold_monad; unfold_views. simpl.
  destruct (equals _ _); [reflexivity |]. sload_simpl.
  rewrite (SafeMath_add_spec _ _ _ Hprice).
  destruct (_ <? _); [| reflexivity].
  destruct (success _); reflexivity.
Qed.

(** [acceptBid] on an active bid, branch by branch. *)
Lemma acceptBid_spec chain id st :
  active_bid st id -> is_u256 (bidAmount st id) ->
  acceptBid chain id st =
    let sender := tx_sender chain in
    let bidder := u256ToAddress (sload bidBidderPointer id st) in
    let amount := bidAmount st id in
    let collection := u256ToAddress (sload bidCollectionPointer id st) in
    let tokenId := sload bidTokenIdPointer id st in
    let owner := call chain collection (ownerOfCalldata tokenId) in
    if negb (success owner)
    then (inl (mkRevert "ownerOf call failed"), st) else
    if negb (equals (readAddress (data owner)) sender)
    then (inl (mkRevert "Caller is not the token owner"), st) else
    let st1 := sstore bidActivePointer id INACTIVE st in
    if totalVolume st + amount <? U256_MODULUS then
      let st2 := sstore totalVolumePointer 0 (totalVolume st + amount) st1 in
      if success (call chain collection (transferCalldata sender bidder tokenId))
      then (inr [writeBoolean true],
            append_event (BidAcceptedEvent id sender) st2)
      else (inl (mkRevert "NFT transfer failed"), st2)
    else (inl (mkRevert "SafeMath: addition overflow"), st1).
Proof.
  intros Hact Hprice. unfold acceptBid, bind at 1.
  rewrite (requireActiveBid_active _ _ Hact).
  unfold is_u256 in Hprice.
  unfold_helpers; unfold_monad; unfold_views. simpl.
  destruct (negb (success _)); [reflexivity |].
  destruct (negb (equals _ _)); [reflexivity |]. simpl. sload_simpl.
  rewrite (SafeMath_add_spec _ _ _ Hprice).
  destruct (_ <? _); [| reflexivity].
  destruct (success _); reflexivity.
Qed.

(** A trade on a listing or bid that is not active stops at the guard. *)
Lemma buyNFT_guard chain id st e st' :
  requireActiveListing id st = (inl e, st') ->
  buyNFT chain id st = (inl e, st').
Proof. intros H. unfold buyNFT, bind at 1. by rewrite H. Qed.

Lemma acceptBid_guard chain id st e st' :
  requireActiveBid id st = (inl e, st') ->
  acceptBid chain id st = (inl e, st').
Proof. intros H. unfold acceptBid, bind at 1. by rewrite H. Qed.

Lemma requireActiveListing_cases id st :
  active_listing st id \/
  exists e, requireActiveListing id st = (inl e, st).
Proof.
  destruct (requireActiveListing id st) as [[e | []] st'] eqn:H.
  - right. exists e. rewrite requireActiveListing_spec in H.
    repeat branch; congruence.
  - left. by apply requireActiveListing_ok in H as [? _].
Qed.

Lemma requireActiveBid_cases id st :
  active_bid st id \/ exists e, requireActiveBid id st = (inl e, st).
Proof.
  destruct (requireActiveBid id st) as [[e | []] st'] eqn:H.
  - right. exists e. rewrite requireActiveBid_spec in H.
    repeat branch; congruence.
  - left. by apply requireActiveBid_ok in H as [? _].
Qed.

(** *** Rate bounds *)

Lemma u256_gt_false a b : u256.gt a b = false -> a <= b.
Proof. unfold u256.gt. intros H. by apply N.ltb_ge. Qed.

Lemma u256_gt_true a b : b < a -> u256.gt a b = true.
Proof. unfold u256.gt. intros H. by apply N.ltb_lt. Qed.

Lemma onDeployment_rates feeRecipient feeBps st :
  onDeployment feeRecipient feeBps emptyState = (inr tt, st) ->
  rates_bounded st.
Proof.
  unfold onDeployment, rates_bounded; unfold_monad; unfold_views.
  intros H. exec_in H. injection H as <-.
  apply u256_gt_false in Heqb0. rewrite MAX_PLATFORM_FEE_BPS_eq in Heqb0.
  split; [| intros c]; sload_simpl; [done |].
  rewrite sload_emptyState. lia.
Qed.

Lemma rates_bounded_step tx st :
  rates_bounded st -> rates_bounded (snd (apply_tx tx st)).
Proof.
  unfold rates_bounded. destruct tx as [chain m].
  intros [Hfee Hroy].
  destruct m; unfold_all; exec; simpl; sload_simpl;
    (split; [| intros c']); sload_simpl; auto;
    repeat match goal with
    | H : u256.gt _ _ = false |- _ =>
        apply u256_gt_false in H;
        rewrite ?MAX_PLATFORM_FEE_BPS_eq, ?MAX_ROYALTY_BPS_eq in H
    end;
    sload_cases; auto.
Qed.

Lemma reachable_invariant (P : State -> Prop) :
  (forall feeRecipient feeBps st,
     onDeployment feeRecipient feeBps emptyState = (inr tt, st) -> P st) ->
  (forall tx st, P st -> P (snd (apply_tx tx st))) ->
  forall st, reachable st -> P st.
Proof.
  intros Hinit Hstep st Hreach.
  induction Hreach as [r f st Hd | tx st _ IH]; eauto.
Qed.

Lemma reachable_rates_bounded st : reachable st -> rates_bounded st.
Proof.
  apply reachable_invariant.
  - apply onDeployment_rates.
  - apply rates_bounded_step.
Qed.

Lemma reachable_run txs st : reachable st -> reachable (run txs st).
Proof. apply run_invariant. intros tx s. apply reachable_step. Qed.

Lemma platformFeeBps_frame chain m st :
  writes_fee m = false ->
  platformFeeBps (snd (execute chain m st)) = platformFeeBps st.
Proof.
  destruct m; try discriminate; intros _;
    unfold_all; exec; simpl; sload_simpl; reflexivity.
Qed.

Lemma collectionRoyaltyBps_frame chain m st collection :
  writes_royalty m = false ->
  collectionRoyaltyBps (snd (execute chain m st)) collection =
  collectionRoyaltyBps st collection.
Proof.
  destruct m; try discriminate; intros _;
    unfold_all; exec; simpl; sload_simpl; reflexivity.
Qed.

Lemma registerCollection_rejects chain collection royaltyBps recipient st :
  1000 < royaltyBps ->
  exists e, registerCollection chain collection royaltyBps recipient st
            = (inl e, st).
Proof.
  intros Hbig. unfold_all.
  rewrite (u256_gt_true royaltyBps MAX_ROYALTY_BPS)
    by (rewrite MAX_ROYALTY_BPS_eq; exact Hbig).
  repeat branch; eauto.
Qed.

Lemma updateRoyalty_rejects chain collection newBps recipient st :
  1000 < newBps ->
  exists e, updateRoyalty chain collection newBps recipient st = (inl e, st).
Proof.
  intros Hbig. unfold_all.
  rewrite (u256_gt_true newBps MAX_ROYALTY_BPS)
    by (rewrite MAX_ROYALTY_BPS_eq; exact Hbig).
  repeat branch; eauto.
Qed.

Lemma setPlatformFee_rejects chain newFeeBps st :
  500 < newFeeBps ->
  exists e, setPlatformFee chain newFeeBps st = (inl e, st).
Proof.
  intros Hbig. unfold_all.
  rewrite (u256_gt_true newFeeBps MAX_PLATFORM_FEE_BPS)
    by (rewrite MAX_PLATFORM_FEE_BPS_eq; exact Hbig).
  repeat branch; eauto.
Qed.

(** *** Listings stay within the allocated ids *)

Lemma onDeployment_listings_in_range feeRecipient feeBps st :
  onDeployment feeRecipient feeBps emptyState = (inr tt, st) ->
  listings_in_range st.
Proof.
  unfold onDeployment, listings_in_range; unfold_monad; unfold_views.
  intros H. exec_in H. injection H as <-.
  split; [| intros id _]; sload_simpl; [done |].
  rewrite !sload_emptyState. auto.
Qed.

Lemma listings_in_range_step tx st :
  listings_in_range st -> listings_in_range (snd (apply_tx tx st)).
Proof.
  unfold listings_in_range. destruct tx as [chain m].
  intros [Hone Hout].
  destruct m; unfold_all; exec; simpl; bool_to_prop;
    (split; [sload_simpl; lia | intros id' Hid'; sload_simpl]);
    apply Hout; lia.
Qed.

(** *** Stored prices are 256-bit words *)

Lemma onDeployment_prices_u256 feeRecipient feeBps st :
  onDeployment feeRecipient feeBps emptyState = (inr tt, st) ->
  prices_u256 st.
Proof.
  unfold onDeployment, prices_u256, is_u256; unfold_monad; unfold_views.
  intros H id. exec_in H. injection H as <-.
  sload_simpl. rewrite !sload_emptyState. split; reflexivity.
Qed.

Lemma prices_u256_step tx st :
  calldata_u256 (tx_method tx) ->
  prices_u256 st -> prices_u256 (snd (apply_tx tx st)).
Proof.
  unfold prices_u256, is_u256. destruct tx as [chain m].
  intros Hargs Hst id'. pose proof (Hst id') as [Hp Ha].
  destruct m; unfold_all; exec; simpl; sload_simpl; auto;
    unfold is_u256 in Hargs; destruct Hargs as [_ Harg];
    split; sload_cases; auto.
Qed.

(** *** Volume accounting *)

Lemma totalVolume_frame chain m st :
  is_trade m = false ->
  totalVolume (snd (execute chain m st)) = totalVolume st.
Proof.
  destruct m; try discriminate; intros _;
    unfold_all; exec; simpl; sload_simpl; reflexivity.
Qed.

(** A successful transaction adds its settlement value to the volume,
    exactly. *)
Lemma totalVolume_step tx st out st' :
  prices_u256 st ->
  apply_tx tx st = (inr out, st') ->
  totalVolume st' =
    totalVolume st + sum (if is_trade (tx_method tx)
                          then [settlement (tx_method tx) st] else []).
Proof.
  intros Hst H. destruct tx as [chain m].
  unfold apply_tx in H. cbn [tx_chain tx_method] in *.
  destruct (is_trade m) eqn:Htrade.
  - destruct m; try discriminate; cbn [execute settlement sum foldr] in *.
    + (* buyNFT *)
      destruct (requireActiveListing_cases listingId st) as [Hact | [e He]].
      * rewrite (buyNFT_spec _ _ _ Hact (proj1 (Hst listingId))) in H.
        cbv zeta in H. repeat branch; try discriminate.
        injection H as _ <-. unfold totalVolume.
        rewrite sload_append_event, sload_sstore_eq. lia.
      * rewrite (buyNFT_guard _ _ _ _ _ He) in H. discriminate.
    + (* acceptBid *)
      destruct (requireActiveBid_cases bidId st) as [Hact | [e He]].
      * rewrite (acceptBid_spec _ _ _ Hact (proj2 (Hst bidId))) in H.
        cbv zeta in H. repeat branch; try discriminate.
        injection H as _ <-. unfold totalVolume.
        rewrite sload_append_event, sload_sstore_eq. lia.
      * rewrite (acceptBid_guard _ _ _ _ _ He) in H. discriminate.
  - pose proof (totalVolume_frame chain m st Htrade) as Hf.
    rewrite H in Hf. simpl in Hf. rewrite Hf. simpl. lia.
Qed.

Lemma sum_app l1 l2 : sum (l1 ++ l2) = sum l1 + sum l2.
Proof.
  unfold sum. induction l1 as [| x l1 IH]; simpl; [done |].
  rewrite IH. lia.
Qed.

Lemma totalVolume_run_ok txs : forall st st',
  prices_u256 st ->
  Forall (fun tx => calldata_u256 (tx_method tx)) txs ->
  run_ok txs st = Some st' ->
  totalVolume st' = totalVolume st + sum (settlements txs st).
Proof.
  induction txs as [| tx txs IH]; intros st st' Hst Hargs Hrun.
  - injection Hrun as <-. simpl. unfold sum; simpl. lia.
  - apply Forall_cons in Hargs as [Harg Hargs].
    cbn [run_ok settlements] in *.
    destruct (apply_tx tx st) as [[e | out] st1] eqn:Htx; [discriminate |].
    pose proof (prices_u256_step tx st Harg Hst) as Hst1.
    rewrite Htx in Hst1. simpl in Hst1 |- *.
    rewrite (IH _ _ Hst1 Hargs Hrun), sum_app.
    rewrite (totalVolume_step _ _ _ _ Hst Htx). lia.
Qed.

Lemma settlements_length txs : forall st,
  length (settlements txs st) =
  length (filter (fun tx => is_trade (tx_method tx) = true) txs).
Proof.
  induction txs as [| tx txs IH]; intros st; [reflexivity |].
  cbn [settlements]. rewrite length_app, IH, filter_cons.
  case_decide as Htrade.
  - rewrite Htrade. reflexivity.
  - apply not_true_is_false in Htrade. rewrite Htrade. reflexivity.
Qed.

(** A trade whose settlement value does not fit reverts, and the volume
    is neither wrapped nor clamped: it is not written. *)
Lemma buyNFT_overflow chain id st :
  is_u256 (listingPrice st id) ->
  U256_MODULUS <= totalVolume st + listingPrice st id ->
  (exists e, fst (buyNFT chain id st) = inl e) /\
  totalVolume (snd (buyNFT chain id st)) = totalVolume st.
Proof.
  intros Hprice Hbig.
  destruct (requireActiveListing_cases id st) as [Hact | [e He]].
  - rewrite (buyNFT_spec _ _ _ Hact Hprice). cbv zeta.
    destruct (equals _ _); simpl; [eauto |].
    destruct (N.ltb_spec (totalVolume st + listingPrice st id) U256_MODULUS);
      [lia |].
    simpl. split; [eauto |]. unfold totalVolume. by sload_simpl.
  - rewrite (buyNFT_guard _ _ _ _ _ He). simpl. eauto.
Qed.

Lemma acceptBid_overflow chain id st :
  is_u256 (bidAmount st id) ->
  U256_MODULUS <= totalVolume st + bidAmount st id ->
  (exists e, fst (acceptBid chain id st) = inl e) /\
  totalVolume (snd (acceptBid chain id st)) = totalVolume st.
Proof.
  intros Hprice Hbig.
  destruct (requireActiveBid_cases id st) as [Hact | [e He]].
  - rewrite (acceptBid_spec _ _ _ Hact Hprice). cbv zeta.
    destruct (negb (success _)); simpl; [eauto |].
    destruct (negb (equals _ _)); simpl; [eauto |].
    destruct (N.ltb_spec (totalVolume st + bidAmount st id) U256_MODULUS);
      [lia |].
    simpl. split; [eauto |]. unfold totalVolume. by sload_simpl.
  - rewrite (acceptBid_guard _ _ _ _ _ He). simpl. eauto.
Qed.

(** *** Cancelling *)

Lemma cancelListing_success chain id st out st' :
  cancelListing chain id st = (inr out, st') ->
  active_listing st id /\
  tx_sender chain = listingSeller st id /\
  out = [writeBoolean true] /\
  st' = append_event (ListingCancelledEvent id)
          (sstore listingActivePointer id INACTIVE st).
Proof.
  unfold cancelListing, bind at 1.
  destruct (requireActiveListing id st) as [[e | []] st1] eqn:Hreq;
    [discriminate |].
  apply requireActiveListing_ok in Hreq as [Hact ->].
  unfold_monad; unfold_views. intros H. exec_in H.
  injection H as <- <-. bool_to_prop. auto.
Qed.

Lemma cancelBid_success chain id st out st' :
  cancelBid chain id st = (inr out, st') ->
  active_bid st id /\
  tx_sender chain = u256ToAddress (sload bidBidderPointer id st) /\
  out = [writeBoolean true] /\
  st' = append_event (BidCancelledEvent id)
          (sstore bidActivePointer id INACTIVE st).
Proof.
  unfold cancelBid, bind at 1.
  destruct (requireActiveBid id st) as [[e | []] st1] eqn:Hreq;
    [discriminate |].
  apply requireActiveBid_ok in Hreq as [Hact ->].
  unfold_monad; unfold_views. intros H. exec_in H.
  injection H as <- <-. bool_to_prop. auto.
Qed.

Lemma cancelListing_deactivates chain id st out st' :
  cancelListing chain id st = (inr out, st') ->
  id <> 0 /\ deactivated_listing st' id.
Proof.
  intros H. apply cancelListing_success in H as ((Hz & Hlt & _) & _ & _ & ->).
  split; [exact Hz |]. unfold deactivated_listing; unfold_views.
  sload_simpl. auto.
Qed.

Lemma cancelBid_deactivates chain id st out st' :
  cancelBid chain id st = (inr out, st') ->
  id <> 0 /\ deactivated_bid st' id.
Proof.
  intros H. apply cancelBid_success in H as ((Hz & Hlt & _) & _ & _ & ->).
  split; [exact Hz |]. unfold deactivated_bid; unfold_views.
  sload_simpl. auto.
Qed.

Lemma cancelListing_deactivated chain id st :
  id <> 0 -> deactivated_listing st id ->
  cancelListing chain id st = (inl (mkRevert "Listing is not active"), st).
Proof.
  intros Hz Hoff. unfold cancelListing, bind at 1.
  by rewrite (requireActiveListing_deactivated _ _ Hz Hoff).
Qed.

Lemma cancelBid_deactivated chain id st :
  id <> 0 -> deactivated_bid st id ->
  cancelBid chain id st = (inl (mkRevert "Bid is not active"), st).
Proof.
  intros Hz Hoff. unfold cancelBid, bind at 1.
  by rewrite (requireActiveBid_deactivated _ _ Hz Hoff).
Qed.

(** Every way a listing or bid is switched off leaves it deactivated:
    the trades too, whether or not the transfer then succeeds. *)
Lemma buyNFT_deactivates chain id st r st' :
  buyNFT chain id st = (r, st') -> st' <> st -> deactivated_listing st' id.
Proof.
  intros H Hne.
  destruct (requireActiveListing_cases id st) as [Hact | [e He]].
  - pose proof Hact as (Hz & Hlt & Hon).
    unfold buyNFT, bind at 1 in H.
    rewrite (requireActiveListing_active _ _ Hact) in H.
    unfold_helpers; unfold_monad; unfold deactivated_listing; unfold_views.
    revert H. exec; intros [= <- <-]; try done; sload_simpl; auto.
  - rewrite (buyNFT_guard _ _ _ _ _ He) in H. congruence.
Qed.

Lemma acceptBid_deactivates chain id st r st' :
  acceptBid chain id st = (r, st') -> st' <> st -> deactivated_bid st' id.
Proof.
  intros H Hne.
  destruct (requireActiveBid_cases id st) as [Hact | [e He]].
  - pose proof Hact as (Hz & Hlt & Hon).
    unfold acceptBid, bind at 1 in H.
    rewrite (requireActiveBid_active _ _ Hact) in H.
    unfold_helpers; unfold_monad; unfold deactivated_bid; unfold_views.
    revert H. exec; intros [= <- <-]; try done; sload_simpl; auto.
  - rewrite (acceptBid_guard _ _ _ _ _ He) in H. congruence.
Qed.

(** *** Cancelling, on an active record *)

Lemma cancelListing_active chain id st :
  active_listing st id ->
  cancelListing chain id st =
    if equals (tx_sender chain) (listingSeller st id)
    then (inr [writeBoolean true],
          append_event (ListingCancelledEvent id)
            (sstore listingActivePointer id INACTIVE st))
    else (inl (mkRevert "Only seller can cancel"), st).
Proof.
  intros Hact. unfold cancelListing, bind at 1.
  rewrite (requireActiveListing_active _ _ Hact).
  unfold emitListingCancelled; unfold_monad; unfold_views. simpl.
  destruct (equals _ _); reflexivity.
Qed.

Lemma cancelBid_active chain id st :
  active_bid st id ->
  cancelBid chain id st =
    if equals (tx_sender chain) (bidBidder st id)
    then (inr [writeBoolean true],
          append_event (BidCancelledEvent id)
            (sstore bidActivePointer id INACTIVE st))
    else (inl (mkRevert "Only bidder can cancel"), st).
Proof.
  intros Hact. unfold cancelBid, bind at 1.
  rewrite (requireActiveBid_active _ _ Hact).
  unfold emitBidCancelled; unfold_monad; unfold bidBidder; unfold_views.
  simpl.
  destruct (equals _ _); reflexivity.
Qed.

Lemma equals_false a b : a <> b -> equals a b = false.
Proof. intros H. unfold equals. by apply N.eqb_neq. Qed.

Lemma equals_true a : equals a a = true.
Proof. unfold equals. apply N.eqb_refl. Qed.

(** *** Events *)

Ltac safemath_cases_in H :=
  match type of H with
  | context [SafeMath.add ?a ?b ?st] =>
      let Hle := fresh "Hle" in
      destruct (SafeMath_add_cases a b st) as [[Hle' Hle] | Hle'];
      rewrite Hle' in H; clear Hle'; simpl in H
  end.

Ltac exec_any_in H :=
  repeat first
    [ rewrite SafeMath_add_One in H
    | safemath_cases_in H; try discriminate
    | progress sload_simpl_in H
    | branch; try discriminate ].

Lemma execute_events chain m st out st' :
  execute chain m st = (inr out, st') ->
  events st' = (events st ++ emitted chain m st)%list.
Proof.
  intros H. destruct m; unfold_all; unfold emitted; unfold_views;
    exec_any_in H; injection H as <- <-;
    rewrite ?events_append_event, ?events_sstore, ?app_nil_r; reflexivity.
Qed.

(** The four read methods return and leave the state as it is. *)
Lemma execute_read_only chain m st :
  is_mutating m = false ->
  exists out, execute chain m st = (inr out, st).
Proof.
  destruct m; try discriminate; intros _;
    unfold_all; simpl; eexists; reflexivity.
Qed.

(** *** Listing *)

Lemma listNFT_success chain collectionAddr tokenId price st out st' :
  listNFT chain collectionAddr tokenId price st = (inr out, st') ->
  out = [writeU256 (nextListingId st)] /\
  nextListingId st' = nextListingId st + 1 /\
  totalListings st' = totalListings st + 1.
Proof.
  unfold_methods; unfold_helpers; unfold_monad; unfold_views.
  intros H. exec_in H.
  injection H as <- <-. sload_simpl. auto.
Qed.

(** The two remote checks, as predicates on the answers. *)
Lemma verifyOwnership_spec chain collection tokenId expectedOwner st :
  verifyOwnership chain collection tokenId expectedOwner st =
    if ownership_confirmed chain collection tokenId expectedOwner
    then (inr tt, st)
    else if success (call chain collection (ownerOfCalldata tokenId))
         then (inl (mkRevert "Caller is not the token owner"), st)
         else (inl (mkRevert "ownerOf call failed"), st).
Proof.
  unfold verifyOwnership, ownership_confirmed; unfold_monad. cbv zeta.
  destruct (success _); simpl; [| reflexivity].
  destruct (equals _ _); reflexivity.
Qed.

Lemma verifyApproval_spec chain collection owner st :
  verifyApproval chain collection owner st =
    if approval_confirmed chain collection owner
    then (inr tt, st)
    else if success (call chain collection
                       (approvalCalldata owner (contractAddress chain)))
         then (inl (mkRevert "Marketplace not approved for transfers"), st)
         else (inl (mkRevert "isApprovedForAll call failed"), st).
Proof.
  unfold verifyApproval, approval_confirmed; unfold_monad. cbv zeta.
  destruct (success _); simpl; [| reflexivity].
  destruct (readBoolean _); reflexivity.
Qed.

Lemma listNFT_unverified chain collectionAddr tokenId price st :
  ownership_confirmed chain collectionAddr tokenId (tx_sender chain) = false \/
  approval_confirmed chain collectionAddr (tx_sender chain) = false ->
  exists e, listNFT chain collectionAddr tokenId price st = (inl e, st).
Proof.
  unfold ownership_confirmed, approval_confirmed. cbv zeta.
  intros Hfail. unfold_all.
  destruct (isZero collectionAddr); [eauto |].
  destruct (u256.eq price u256.Zero); [eauto |].
  destruct (success (call chain collectionAddr (ownerOfCalldata tokenId)));
    simpl in *; [| eauto].
  destruct (equals _ (tx_sender chain)); simpl in *; [| eauto].
  destruct (success (call chain collectionAddr (approvalCalldata _ _)));
    simpl in *; [| eauto].
  destruct (readBoolean _); simpl in *; [| eauto].
  destruct Hfail; discriminate.
Qed.

Lemma listNFT_verified chain collectionAddr tokenId price st out st' :
  listNFT chain collectionAddr tokenId price st = (inr out, st') ->
  ownership_confirmed chain collectionAddr tokenId (tx_sender chain) = true /\
  approval_confirmed chain collectionAddr (tx_sender chain) = true.
Proof.
  intros H.
  destruct (ownership_confirmed _ _ _ _) eqn:Ho;
    [destruct (approval_confirmed _ _ _) eqn:Ha; [done |] |].
  - destruct (listNFT_unverified chain collectionAddr tokenId price st
                (or_intror Ha)) as [e He]. congruence.
  - destruct (listNFT_unverified chain collectionAddr tokenId price st
                (or_introl Ho)) as [e He]. congruence.
Qed.

(** *** Buying *)

Lemma buyNFT_own_listing chain id st :
  active_listing st id -> listingSeller st id = tx_sender chain ->
  buyNFT chain id st = (inl (mkRevert "Buyer cannot be seller"), st).
Proof.
  intros Hact Hseller. unfold buyNFT, bind at 1.
  rewrite (requireActiveListing_active _ _ Hact).
  unfold_monad; unfold_views. simpl. rewrite Hseller.
  unfold equals. by rewrite N.eqb_refl.
Qed.

Lemma buyNFT_same_transfer chain1 chain2 id st :
  same_transfer_responses chain1 chain2 ->
  buyNFT chain1 id st = buyNFT chain2 id st.
Proof.
  intros [Hsender Htransfer].
  unfold buyNFT, executeNFTTransfer, emitListingSold.
  rewrite Hsender. unfold_monad.
  destruct (requireActiveListing id st) as [[e | []] st1]; [reflexivity |].
  simpl. destruct (equals _ _); [reflexivity |].
  safemath_cases; [| reflexivity].
  rewrite Htransfer. reflexivity.
Qed.

(** *** Reading *)

Lemma getListing_spec id st :
  getListing id st =
    (inr [writeU256 (sload listingCollectionPointer id st);
          writeU256 (sload listingTokenIdPointer id st);
          writeU256 (sload listingSellerPointer id st);
          writeU256 (sload listingPricePointer id st);
          writeU256 (sload listingActivePointer id st)], st).
Proof. reflexivity. Qed.

Lemma reachable_listings_in_range st : reachable st -> listings_in_range st.
Proof.
  apply reachable_invariant.
  - apply onDeployment_listings_in_range.
  - apply listings_in_range_step.
Qed.

Lemma reachable_deployed : reachable deployed.
Proof. by apply (reachable_deploy admin 250). Qed.

Lemma prices_u256_deployed : prices_u256 deployed.
Proof. by apply (onDeployment_prices_u256 admin 250). Qed.

Lemma prices_u256_listed_and_bid : prices_u256 listed_and_bid.
Proof.
  unfold listed_and_bid. rewrite !run_cons.
  apply prices_u256_step; [by vm_compute |].
  apply prices_u256_step; [by vm_compute |].
  apply prices_u256_deployed.
Qed.

(** *** The sample deployment, run *)

(** Alice lists token 7 at 1000 and gets id 1; [getListing 1] shows the
    record as active; after her cancel it shows as inactive and a second
    cancel is refused. *)
Example listing_scenario :
  fst (apply_tx alice_lists deployed) = inr [writeU256 1] /\
  fst (getListing 1 listed)
    = inr [writeU256 collectionC; writeU256 7; writeU256 alice;
           writeU256 1000; writeU256 1] /\
  fst (getListing 1
         (snd (cancelListing (chain_of alice alice true true) 1 listed)))
    = inr [writeU256 collectionC; writeU256 7; writeU256 alice;
           writeU256 1000; writeU256 0] /\
  fst (cancelListing (chain_of alice alice true true) 1
         (snd (cancelListing (chain_of alice alice true true) 1 listed)))
    = inl (mkRevert "Listing is not active").
Proof. vm_compute. repeat split. Qed.

(** The deployer registers collection C at 2.5%; [getCollectionInfo]
    then reports it registered with that rate. *)
Example registration_scenario :
  fst (getCollectionInfo collectionC registered)
    = inr [writeU256 1; writeU256 250; writeU256 alice] /\
  events registered = [CollectionRegisteredEvent collectionC 250].
Proof. vm_compute. repeat split. Qed.

(** * The claims *)

(** C1. In [buyNFT] and [acceptBid] the listing or bid is deactivated and
    its price or amount is added to [totalVolume] before the transfer is
    called: whenever the call fails on the transfer (the collection did
    not report success), the state it leaves has the flag at [INACTIVE]
    and the volume incremented by the settlement value, and no event was
    emitted. *)
Theorem trade_transfer_failure_keeps_writes chain m st st' :
  is_trade m = true ->
  is_u256 (settlement m st) ->
  execute chain m st = (inl (mkRevert "NFT transfer failed"), st') ->
  success <$> trade_transfer chain m st = Some false /\
  trade_active m st' = INACTIVE /\
  totalVolume st' = totalVolume st + settlement m st /\
  events st' = events st.
Proof.
  intros Htrade Hprice H.
  destruct m; try discriminate;
    cbn [execute settlement trade_active trade_transfer] in *.
  - apply (buyNFT_transfer_failed _ _ _ _ Hprice) in H as [-> Hcall].
    split; [simpl; by rewrite Hcall |].
    unfold listingActive, totalVolume. sload_simpl.
    rewrite !events_sstore. auto.
  - apply (acceptBid_transfer_failed _ _ _ _ Hprice) in H as [-> Hcall].
    split; [simpl; by rewrite Hcall |].
    unfold bidActive, totalVolume. sload_simpl.
    rewrite !events_sstore. auto.
Qed.

Lemma trade_transfer_failure_keeps_writes_witness :
  (success <$> trade_transfer (chain_of bob alice true false)
                 (buyNFTSelector 1) listed_and_bid = Some false /\
   trade_active (buyNFTSelector 1) buy_failed = INACTIVE /\
   totalVolume buy_failed
     = totalVolume listed_and_bid + settlement (buyNFTSelector 1) listed_and_bid /\
   events buy_failed = events listed_and_bid) /\
  (success <$> trade_transfer (chain_of alice alice true false)
                 (acceptBidSelector 1) listed_and_bid = Some false /\
   trade_active (acceptBidSelector 1) accept_failed = INACTIVE /\
   totalVolume accept_failed
     = totalVolume listed_and_bid
       + settlement (acceptBidSelector 1) listed_and_bid /\
   events accept_failed = events listed_and_bid).
Proof.
  assert (Hprice : is_u256 (settlement (buyNFTSelector 1) listed_and_bid))
    by (vm_compute; reflexivity).
  assert (Hamount : is_u256 (settlement (acceptBidSelector 1) listed_and_bid))
    by (vm_compute; reflexivity).
  assert (Hbuy :
    execute (chain_of bob alice true false) (buyNFTSelector 1) listed_and_bid
    = (inl (mkRevert "NFT transfer failed"), buy_failed))
    by (vm_compute; reflexivity).
  assert (Haccept :
    execute (chain_of alice alice true false) (acceptBidSelector 1)
      listed_and_bid
    = (inl (mkRevert "NFT transfer failed"), accept_failed))
    by (vm_compute; reflexivity).
  exact (conj
    (trade_transfer_failure_keeps_writes
       (chain_of bob alice true false) (buyNFTSelector 1)
       listed_and_bid buy_failed eq_refl Hprice Hbuy)
    (trade_transfer_failure_keeps_writes
       (chain_of alice alice true false) (acceptBidSelector 1)
       listed_and_bid accept_failed eq_refl Hamount Haccept)).
Defined.

(** C2, as the contract has it.  [getListing] has no bounds check and
    never fails: for every state and every id, in particular id 0 and any
    id at or beyond [nextListingId], it returns the five stored words of
    that id and leaves the state unchanged; in every reachable state the
    words of such an id are all zero, so the tuple reads as an inactive,
    empty record. *)
Theorem getListing_out_of_range_returns_fields id st :
  getListing id st =
    (inr [writeU256 (sload listingCollectionPointer id st);
          writeU256 (sload listingTokenIdPointer id st);
          writeU256 (sload listingSellerPointer id st);
          writeU256 (sload listingPricePointer id st);
          writeU256 (sload listingActivePointer id st)], st) /\
  (reachable st -> id = 0 \/ nextListingId st <= id ->
   getListing id st =
     (inr [writeU256 0; writeU256 0; writeU256 0; writeU256 0; writeU256 0],
      st)).
Proof.
  split; [apply getListing_spec |].
  intros Hreach Hout. rewrite getListing_spec.
  apply reachable_listings_in_range in Hreach as [_ Hzero].
  destruct (Hzero id Hout) as (-> & -> & -> & -> & ->). reflexivity.
Qed.

Lemma getListing_out_of_range_returns_fields_witness :
  getListing 2 listed =
    (inr [writeU256 0; writeU256 0; writeU256 0; writeU256 0; writeU256 0],
     listed).
Proof.
  apply (proj2 (getListing_out_of_range_returns_fields 2 listed)).
  - apply reachable_run, reachable_deployed.
  - right. vm_compute. discriminate.
Defined.

(** C2, as stated, fails: in the freshly deployed contract, where
    [nextListingId] is 1, [getListing] returns a tuple both for id 0 and
    for id 1. *)
Lemma getListing_zero_id_does_not_fail :
  nextListingId deployed = 1 /\
  getListing 0 deployed =
    (inr [writeU256 0; writeU256 0; writeU256 0; writeU256 0; writeU256 0],
     deployed) /\
  getListing 1 deployed =
    (inr [writeU256 0; writeU256 0; writeU256 0; writeU256 0; writeU256 0],
     deployed).
Proof. repeat split. Qed.

(** C3. A successful [listNFT] returns the value the listing counter had
    before the call, leaves the counter at that value plus one, and
    increases [totalListings] by one. *)
Theorem listNFT_returns_and_advances_counter
    chain collectionAddr tokenId price st out st' :
  listNFT chain collectionAddr tokenId price st = (inr out, st') ->
  out = [writeU256 (nextListingId st)] /\
  nextListingId st' = nextListingId st + 1 /\
  totalListings st' = totalListings st + 1.
Proof. apply listNFT_success. Qed.

Lemma listNFT_returns_and_advances_counter_witness :
  [writeU256 1] = [writeU256 (nextListingId deployed)] /\
  nextListingId listed = nextListingId deployed + 1 /\
  totalListings listed = totalListings deployed + 1.
Proof.
  assert (Hrun :
    listNFT (chain_of alice alice true true) collectionC 7 1000 deployed
    = (inr [writeU256 1], listed))
    by (vm_compute; reflexivity).
  exact (listNFT_returns_and_advances_counter _ _ _ _ _ _ _ Hrun).
Defined.

(** C4. A listing or bid that has been switched off stays off through
    every later sequence of transactions, whatever they are and whether
    they succeed or revert; so after a successful [cancelListing]
    (resp. [cancelBid]) any further cancel of the same id, by anyone and
    at any later time, reverts with the not-active message.  The first
    cancel does succeed: on an active listing called by its seller (on an
    active bid called by its bidder) it returns true and switches the
    flag off, and the second cancel of that id is the one that reverts. *)
Theorem deactivation_is_terminal chain chain' id st out st1 txs :
  (cancelListing chain id st = (inr out, st1) ->
   listingActive (run txs st1) id = INACTIVE /\
   cancelListing chain' id (run txs st1) =
     (inl (mkRevert "Listing is not active"), run txs st1)) /\
  (cancelBid chain id st = (inr out, st1) ->
   bidActive (run txs st1) id = INACTIVE /\
   cancelBid chain' id (run txs st1) =
     (inl (mkRevert "Bid is not active"), run txs st1)) /\
  (forall r, buyNFT chain id st = (r, st1) -> st1 <> st ->
   listingActive (run txs st1) id = INACTIVE) /\
  (forall r, acceptBid chain id st = (r, st1) -> st1 <> st ->
   bidActive (run txs st1) id = INACTIVE) /\
  (deactivated_listing st id -> deactivated_listing (run txs st) id) /\
  (deactivated_bid st id -> deactivated_bid (run txs st) id) /\
  (active_listing st id -> tx_sender chain = listingSeller st id ->
   exists st2,
     cancelListing chain id st = (inr [writeBoolean true], st2) /\
     listingActive st2 id = INACTIVE /\
     cancelListing chain id st2 =
       (inl (mkRevert "Listing is not active"), st2) /\
     cancelListing chain' id (run txs st2) =
       (inl (mkRevert "Listing is not active"), run txs st2)) /\
  (active_bid st id -> tx_sender chain = bidBidder st id ->
   exists st2,
     cancelBid chain id st = (inr [writeBoolean true], st2) /\
     bidActive st2 id = INACTIVE /\
     cancelBid chain id st2 = (inl (mkRevert "Bid is not active"), st2) /\
     cancelBid chain' id (run txs st2) =
       (inl (mkRevert "Bid is not active"), run txs st2)).
Proof.
  split; [| split; [| split; [| split; [| split; [| split; [| split]]]]]].
  - intros H. apply cancelListing_deactivates in H as [Hz Hoff].
    apply (deactivated_listing_run txs) in Hoff.
    split; [apply Hoff | by apply cancelListing_deactivated].
  - intros H. apply cancelBid_deactivates in H as [Hz Hoff].
    apply (deactivated_bid_run txs) in Hoff.
    split; [apply Hoff | by apply cancelBid_deactivated].
  - intros r H Hne. apply (buyNFT_deactivates _ _ _ _ _ H) in Hne.
    by apply (deactivated_listing_run txs) in Hne as [_ ?].
  - intros r H Hne. apply (acceptBid_deactivates _ _ _ _ _ H) in Hne.
    by apply (deactivated_bid_run txs) in Hne as [_ ?].
  - apply deactivated_listing_run.
  - apply deactivated_bid_run.
  - intros Hact Hseller.
    pose proof (cancelListing_active chain id st Hact) as Hfirst.
    rewrite Hseller, equals_true in Hfirst.
    eexists. split; [exact Hfirst |].
    apply cancelListing_deactivates in Hfirst as [Hz Hoff].
    split; [apply Hoff |].
    split; [by apply cancelListing_deactivated |].
    apply cancelListing_deactivated; [exact Hz |].
    by apply deactivated_listing_run.
  - intros Hact Hbidder.
    pose proof (cancelBid_active chain id st Hact) as Hfirst.
    rewrite Hbidder, equals_true in Hfirst.
    eexists. split; [exact Hfirst |].
    apply cancelBid_deactivates in Hfirst as [Hz Hoff].
    split; [apply Hoff |].
    split; [by apply cancelBid_deactivated |].
    apply cancelBid_deactivated; [exact Hz |].
    by apply deactivated_bid_run.
Qed.

Lemma deactivation_is_terminal_witness :
  (exists st2,
     cancelListing (chain_of alice alice true true) 1 listed_and_bid
       = (inr [writeBoolean true], st2) /\
     listingActive st2 1 = INACTIVE /\
     cancelListing (chain_of alice alice true true) 1 st2 =
       (inl (mkRevert "Listing is not active"), st2) /\
     cancelListing (chain_of bob alice true true) 1
       (run [bob_bids; alice_lists] st2) =
       (inl (mkRevert "Listing is not active"),
        run [bob_bids; alice_lists] st2)) /\
  (exists st2,
     cancelBid (chain_of bob alice true true) 1 listed_and_bid
       = (inr [writeBoolean true], st2) /\
     bidActive st2 1 = INACTIVE /\
     cancelBid (chain_of bob alice true true) 1 st2
       = (inl (mkRevert "Bid is not active"), st2) /\
     cancelBid (chain_of alice alice true true) 1
       (run [bob_bids; alice_lists] st2) =
       (inl (mkRevert "Bid is not active"),
        run [bob_bids; alice_lists] st2)).
Proof.
  assert (Hlisting : active_listing listed_and_bid 1)
    by (unfold active_listing; vm_compute; repeat split; discriminate).
  assert (Hseller :
    tx_sender (chain_of alice alice true true)
    = listingSeller listed_and_bid 1)
    by (vm_compute; reflexivity).
  assert (Hbid : active_bid listed_and_bid 1)
    by (unfold active_bid; vm_compute; repeat split; discriminate).
  assert (Hbidder :
    tx_sender (chain_of bob alice true true) = bidBidder listed_and_bid 1)
    by (vm_compute; reflexivity).
  pose proof (deactivation_is_terminal
                (chain_of alice alice true true)
                (chain_of bob alice true true) 1 listed_and_bid
                [writeBoolean true] listed_and_bid [bob_bids; alice_lists])
    as (_ & _ & _ & _ & _ & _ & Hcancel & _).
  pose proof (deactivation_is_terminal
                (chain_of bob alice true true)
                (chain_of alice alice true true) 1 listed_and_bid
                [writeBoolean true] listed_and_bid [bob_bids; alice_lists])
    as (_ & _ & _ & _ & _ & _ & _ & Hcancel').
  exact (conj (Hcancel Hlisting Hseller) (Hcancel' Hbid Hbidder)).
Defined.

(** C5 fails on the three administrative setters.  The deployer sets the
    platform fee, sets the fee recipient, and updates the royalty of a
    registered collection: each call succeeds and the event log is left
    as it was. *)
Theorem admin_setters_emit_no_event :
  (fst (setPlatformFee admin_chain 100 deployed) = inr [writeBoolean true] /\
   platformFeeBps (snd (setPlatformFee admin_chain 100 deployed)) = 100 /\
   events (snd (setPlatformFee admin_chain 100 deployed)) = events deployed) /\
  (fst (setPlatformFeeRecipient admin_chain bob deployed)
     = inr [writeBoolean true] /\
   events (snd (setPlatformFeeRecipient admin_chain bob deployed))
     = events deployed) /\
  (fst (updateRoyalty admin_chain collectionC 300 bob registered)
     = inr [writeBoolean true] /\
   collectionRoyaltyBps
     (snd (updateRoyalty admin_chain collectionC 300 bob registered))
     collectionC = 300 /\
   events (snd (updateRoyalty admin_chain collectionC 300 bob registered))
     = events registered).
Proof. vm_compute. repeat split. Qed.

(** C6. In every state reachable from a deployment the platform fee is at
    most 500 and every stored royalty rate is at most 1000;
    [registerCollection] and [updateRoyalty] reject a rate above 1000 and
    [setPlatformFee] rejects one above 500, without touching the state;
    and no other method changes these fields. *)
Theorem rates_stay_bounded st :
  reachable st ->
  (platformFeeBps st <= 500 /\
   forall collection, collectionRoyaltyBps st collection <= 1000) /\
  (forall chain collection royaltyBps recipient, 1000 < royaltyBps ->
     exists e, registerCollection chain collection royaltyBps recipient st
               = (inl e, st)) /\
  (forall chain collection newBps recipient, 1000 < newBps ->
     exists e, updateRoyalty chain collection newBps recipient st
               = (inl e, st)) /\
  (forall chain newFeeBps, 500 < newFeeBps ->
     exists e, setPlatformFee chain newFeeBps st = (inl e, st)) /\
  (forall chain m, writes_fee m = false ->
     platformFeeBps (snd (execute chain m st)) = platformFeeBps st) /\
  (forall chain m collection, writes_royalty m = false ->
     collectionRoyaltyBps (snd (execute chain m st)) collection
     = collectionRoyaltyBps st collection).
Proof.
  intros Hreach.
  split; [exact (reachable_rates_bounded st Hreach) |].
  split; [intros; by apply registerCollection_rejects |].
  split; [intros; by apply updateRoyalty_rejects |].
  split; [intros; by apply setPlatformFee_rejects |].
  split; [intros; by apply platformFeeBps_frame |].
  intros; by apply collectionRoyaltyBps_frame.
Qed.

Lemma rates_stay_bounded_witness :
  platformFeeBps listed_and_bid <= 500 /\
  forall collection, collectionRoyaltyBps listed_and_bid collection <= 1000.
Proof.
  apply (rates_stay_bounded listed_and_bid).
  apply reachable_run, reachable_deployed.
Defined.

(** C7. On an active listing whose recorded seller is the caller,
    [buyNFT] reverts with the buyer-cannot-be-seller message and the
    state is exactly the state before the call. *)
Theorem buyNFT_by_seller_fails_unchanged chain id st :
  active_listing st id ->
  listingSeller st id = tx_sender chain ->
  buyNFT chain id st = (inl (mkRevert "Buyer cannot be seller"), st).
Proof. apply buyNFT_own_listing. Qed.

Lemma buyNFT_by_seller_fails_unchanged_witness :
  buyNFT (chain_of alice alice true true) 1 listed
    = (inl (mkRevert "Buyer cannot be seller"), listed).
Proof.
  apply buyNFT_by_seller_fails_unchanged.
  - unfold active_listing. vm_compute. repeat split; discriminate.
  - vm_compute. reflexivity.
Defined.

(** C8. [listNFT] asks the collection who owns the token and whether the
    marketplace is approved before it writes anything: when either call
    fails or answers no, [listNFT] reverts and the state is exactly the
    state before the call, so no listing is recorded and neither counter
    moves; and a [listNFT] that succeeds has had both answers. *)
Theorem listNFT_unverified_fails_unchanged
    chain collectionAddr tokenId price st :
  ownership_confirmed chain collectionAddr tokenId (tx_sender chain) = false \/
  approval_confirmed chain collectionAddr (tx_sender chain) = false ->
  (exists e, listNFT chain collectionAddr tokenId price st = (inl e, st)) /\
  nextListingId (snd (listNFT chain collectionAddr tokenId price st))
    = nextListingId st /\
  totalListings (snd (listNFT chain collectionAddr tokenId price st))
    = totalListings st.
Proof.
  intros Hfail.
  destruct (listNFT_unverified chain collectionAddr tokenId price st Hfail)
    as [e He].
  rewrite He. simpl. eauto.
Qed.

Lemma listNFT_unverified_fails_unchanged_witness :
  (exists e, listNFT (chain_of bob alice true true) collectionC 7 1000 deployed
             = (inl e, deployed)) /\
  (exists e, listNFT (chain_of alice alice false true) collectionC 7 1000
               deployed
             = (inl e, deployed)).
Proof.
  split.
  - apply (listNFT_unverified_fails_unchanged
             (chain_of bob alice true true) collectionC 7 1000 deployed).
    left. vm_compute. reflexivity.
  - apply (listNFT_unverified_fails_unchanged
             (chain_of alice alice false true) collectionC 7 1000 deployed).
    right. vm_compute. reflexivity.
Defined.

(** C9. Over any sequence of successful transactions the volume grows by
    exactly the sum of the settlement values of its trades, one value per
    [buyNFT] or [acceptBid] and nothing for any other method; the sum is
    the mathematical one, and a trade whose settlement value would take
    the volume past [2^256 - 1] reverts and leaves the volume unwritten. *)
Theorem totalVolume_is_sum_of_settlements txs st st' :
  prices_u256 st ->
  Forall (fun tx => calldata_u256 (tx_method tx)) txs ->
  run_ok txs st = Some st' ->
  totalVolume st' = totalVolume st + sum (settlements txs st) /\
  length (settlements txs st) =
    length (filter (fun tx => is_trade (tx_method tx) = true) txs) /\
  (forall chain id,
     U256_MODULUS <= totalVolume st + listingPrice st id ->
     (exists e, fst (buyNFT chain id st) = inl e) /\
     totalVolume (snd (buyNFT chain id st)) = totalVolume st) /\
  (forall chain id,
     U256_MODULUS <= totalVolume st + bidAmount st id ->
     (exists e, fst (acceptBid chain id st) = inl e) /\
     totalVolume (snd (acceptBid chain id st)) = totalVolume st).
Proof.
  intros Hst Hargs Hrun.
  split; [by apply totalVolume_run_ok |].
  split; [apply settlements_length |].
  split; intros chain id Hbig.
  - apply buyNFT_overflow; [apply Hst | exact Hbig].
  - apply acceptBid_overflow; [apply Hst | exact Hbig].
Qed.

Lemma totalVolume_is_sum_of_settlements_witness :
  totalVolume traded = totalVolume deployed + sum (settlements trades deployed).
Proof.
  assert (Hargs : Forall (fun tx => calldata_u256 (tx_method tx)) trades)
    by (repeat constructor; vm_compute; reflexivity).
  assert (Hrun : run_ok trades deployed = Some traded)
    by (vm_compute; reflexivity).
  exact (proj1 (totalVolume_is_sum_of_settlements trades deployed traded
                  prices_u256_deployed Hargs Hrun)).
Defined.

(** C10. [buyNFT] makes no ownership or approval call: two environments
    with the same caller whose collections answer the transfer call alike
    give the same result and the same state, whatever they would answer to
    [ownerOf] and [isApprovedForAll]. *)
Theorem buyNFT_ignores_ownership_and_approval chain1 chain2 id st :
  same_transfer_responses chain1 chain2 ->
  buyNFT chain1 id st = buyNFT chain2 id st.
Proof. apply buyNFT_same_transfer. Qed.

Lemma buyNFT_ignores_ownership_and_approval_witness :
  buyNFT (chain_of bob alice true true) 1 listed
  = buyNFT (chain_of bob admin false true) 1 listed.
Proof.
  apply buyNFT_ignores_ownership_and_approval.
  repeat split.
Defined.

(** * Further lemmas *)

Ltac unfold_more_views :=
  unfold same_listings, same_bids, listing_terms, bid_terms,
    listingCollection, listingTokenId, bidCollection, bidTokenId, bidBidder,
    collectionRegistered, collectionRoyaltyRecipient, platformFeeRecipient
    in *;
  unfold_views.

Ltac sload_simpl_hyps :=
  repeat match goal with
  | H : context [sload _ _ (sstore _ _ _ _)] |- _ => progress sload_simpl_in H
  end.

(** *** The two ledgers do not touch each other *)

Lemma bids_frame chain m st :
  is_bid_method m = false -> same_bids st (snd (execute chain m st)).
Proof.
  destruct m; try discriminate; intros _;
    unfold_all; unfold_more_views; exec; simpl;
    (split; [| intros id'; split]); sload_simpl; reflexivity.
Qed.

Lemma listings_frame chain m st :
  is_listing_method m = false -> same_listings st (snd (execute chain m st)).
Proof.
  destruct m; try discriminate; intros _;
    unfold_all; unfold_more_views; exec; simpl;
    (split; [| split; [| intros id'; split]]); sload_simpl; reflexivity.
Qed.

(** *** The terms of a record are never rewritten *)

Lemma listing_terms_step tx st id :
  id < nextListingId st ->
  id < nextListingId (snd (apply_tx tx st)) /\
  listing_terms (snd (apply_tx tx st)) id = listing_terms st id.
Proof.
  destruct tx as [chain m]. intros Hlt.
  destruct m; unfold_all; unfold_more_views; exec; simpl; bool_to_prop;
    sload_simpl; (split; [lia | reflexivity]).
Qed.

Lemma bid_terms_step tx st id :
  id < nextBidId st ->
  id < nextBidId (snd (apply_tx tx st)) /\
  bid_terms (snd (apply_tx tx st)) id = bid_terms st id.
Proof.
  destruct tx as [chain m]. intros Hlt.
  destruct m; unfold_all; unfold_more_views; exec; simpl; bool_to_prop;
    sload_simpl; (split; [lia | reflexivity]).
Qed.

Lemma listing_terms_run txs st id :
  id < nextListingId st ->
  id < nextListingId (run txs st) /\
  listing_terms (run txs st) id = listing_terms st id.
Proof.
  intros Hlt.
  apply (run_invariant
           (fun s => id < nextListingId s /\
                     listing_terms s id = listing_terms st id)); [| auto].
  intros tx s [Hs Heq].
  destruct (listing_terms_step tx s id Hs) as [Hs' Heq'].
  split; [exact Hs' | congruence].
Qed.

Lemma bid_terms_run txs st id :
  id < nextBidId st ->
  id < nextBidId (run txs st) /\
  bid_terms (run txs st) id = bid_terms st id.
Proof.
  intros Hlt.
  apply (run_invariant
           (fun s => id < nextBidId s /\ bid_terms s id = bid_terms st id));
    [| auto].
  intros tx s [Hs Heq].
  destruct (bid_terms_step tx s id Hs) as [Hs' Heq'].
  split; [exact Hs' | congruence].
Qed.

(** *** Counters and totals only grow *)

Lemma grown_step tx st : grown st (snd (apply_tx tx st)).
Proof.
  destruct tx as [chain m]. unfold grown.
  destruct m; unfold_all; exec; simpl; bool_to_prop; sload_simpl;
    sload_simpl_hyps; repeat split; lia.
Qed.

Lemma grown_run txs st : grown st (run txs st).
Proof.
  apply (run_invariant (fun s => grown st s)).
  - intros tx s (H1 & H2 & H3 & H4).
    destruct (grown_step tx s) as (G1 & G2 & G3 & G4).
    unfold grown. repeat split; lia.
  - unfold grown. repeat split; lia.
Qed.

(** *** Bids stay within the allocated ids *)

Lemma onDeployment_bids_in_range feeRecipient feeBps st :
  onDeployment feeRecipient feeBps emptyState = (inr tt, st) ->
  bids_in_range st.
Proof.
  unfold onDeployment, bids_in_range; unfold_monad; unfold_views.
  intros H. exec_in H. injection H as <-.
  split; [| intros id _]; sload_simpl; [done |].
  rewrite !sload_emptyState. auto.
Qed.

Lemma bids_in_range_step tx st :
  bids_in_range st -> bids_in_range (snd (apply_tx tx st)).
Proof.
  unfold bids_in_range. destruct tx as [chain m].
  intros [Hone Hout].
  destruct m; unfold_all; exec; simpl; bool_to_prop;
    (split; [sload_simpl; lia | intros id' Hid'; sload_simpl]);
    apply Hout; lia.
Qed.

Lemma reachable_bids_in_range st : reachable st -> bids_in_range st.
Proof.
  apply reachable_invariant.
  - apply onDeployment_bids_in_range.
  - apply bids_in_range_step.
Qed.

(** *** Allocated records are well formed *)

Lemma onDeployment_counters feeRecipient feeBps st :
  onDeployment feeRecipient feeBps emptyState = (inr tt, st) ->
  nextListingId st = 1 /\ nextBidId st = 1 /\
  totalListings st = 0 /\ totalVolume st = 0 /\
  platformFeeBps st = feeBps /\ platformFeeRecipient st = feeRecipient /\
  feeRecipient <> 0 /\ feeBps <= 500 /\ events st = [].
Proof.
  unfold onDeployment; unfold_monad; unfold_more_views.
  intros H. exec_in H. injection H as <-. bool_to_prop.
  rewrite MAX_PLATFORM_FEE_BPS_eq in *.
  sload_simpl. rewrite !sload_emptyState. repeat split; auto.
Qed.

Lemma onDeployment_records_valid feeRecipient feeBps st :
  onDeployment feeRecipient feeBps emptyState = (inr tt, st) ->
  records_valid st.
Proof.
  intros H. apply onDeployment_counters in H as (Hl & Hb & _).
  unfold records_valid. rewrite Hl, Hb. split; intros; lia.
Qed.

Lemma records_valid_step tx st :
  records_valid st -> records_valid (snd (apply_tx tx st)).
Proof.
  unfold records_valid. destruct tx as [chain m].
  intros [Hlist Hbid].
  destruct m; unfold_all; unfold_more_views; exec; simpl; bool_to_prop;
    (split; intros id' Hz Hlt; sload_simpl_in Hlt; sload_simpl);
    try (apply Hlist; lia); try (apply Hbid; lia);
    [ destruct (N.eq_dec id' (sload nextListingIdPointer 0 st)) as [-> | Hne]
    | destruct (N.eq_dec id' (sload nextListingIdPointer 0 st)) as [-> | Hne]
    | destruct (N.eq_dec id' (sload nextBidIdPointer 0 st)) as [-> | Hne] ];
    sload_simpl; auto;
    try (apply Hlist; lia); try (apply Hbid; lia).
Qed.

(** *** The registry *)

Lemma onDeployment_registry feeRecipient feeBps st :
  onDeployment feeRecipient feeBps emptyState = (inr tt, st) ->
  registry_consistent st.
Proof.
  unfold onDeployment, registry_consistent; unfold_monad; unfold_more_views.
  intros H c. exec_in H. injection H as <-.
  left. sload_simpl. rewrite !sload_emptyState. auto.
Qed.

Lemma registry_consistent_step tx st :
  registry_consistent st -> registry_consistent (snd (apply_tx tx st)).
Proof.
  unfold registry_consistent. destruct tx as [chain m].
  intros Hreg c'. pose proof (Hreg c') as Hc'.
  destruct m; unfold_all; unfold_more_views; exec; simpl; bool_to_prop;
    sload_simpl; auto.
  - (* registerCollection *)
    destruct (N.eq_dec collection c') as [-> | Hne]; sload_simpl; auto.
  - (* updateRoyalty *)
    destruct (N.eq_dec collection c') as [-> | Hne]; sload_simpl; auto.
    right. destruct Hc' as [(H0 & _) | (H1 & Hnz & _)]; [congruence | auto].
Qed.

Lemma reachable_registry_consistent st :
  reachable st -> registry_consistent st.
Proof.
  apply reachable_invariant.
  - apply onDeployment_registry.
  - apply registry_consistent_step.
Qed.

(** Once registered, always registered. *)
Lemma registered_step tx st collection :
  collectionRegistered st collection = 1 ->
  collectionRegistered (snd (apply_tx tx st)) collection = 1.
Proof.
  destruct tx as [chain m]. intros Hreg.
  destruct m; unfold_all; unfold_more_views; exec; simpl; sload_simpl; auto.
  sload_cases; auto.
Qed.

(** *** The fee recipient *)

Lemma platformFeeRecipient_step tx st :
  platformFeeRecipient st <> 0 ->
  platformFeeRecipient (snd (apply_tx tx st)) <> 0.
Proof.
  destruct tx as [chain m]. intros Hnz.
  destruct m; unfold_all; unfold_more_views; exec; simpl; bool_to_prop;
    sload_simpl; auto.
Qed.

Lemma reachable_platformFeeRecipient st :
  reachable st -> platformFeeRecipient st <> 0.
Proof.
  apply (reachable_invariant (fun s => platformFeeRecipient s <> 0)).
  - intros r f s H.
    by apply onDeployment_counters in H as (_ & _ & _ & _ & _ & -> & ? & _).
  - apply platformFeeRecipient_step.
Qed.

(** *** The listing count *)

Lemma onDeployment_listing_count feeRecipient feeBps st :
  onDeployment feeRecipient feeBps emptyState = (inr tt, st) ->
  listing_count_consistent st.
Proof.
  intros H. apply onDeployment_counters in H as (Hl & _ & Ht & _).
  unfold listing_count_consistent. rewrite Hl, Ht. repeat split; lia.
Qed.

Lemma listing_count_consistent_step tx st :
  listing_count_consistent st ->
  listing_count_consistent (snd (apply_tx tx st)).
Proof.
  unfold listing_count_consistent. destruct tx as [chain m].
  intros (Hone & Hfit & Hcount).
  destruct m; unfold_all; exec; simpl; bool_to_prop; sload_simpl;
    repeat split; lia.
Qed.

Lemma reachable_listing_count st :
  reachable st -> listing_count_consistent st.
Proof.
  apply reachable_invariant.
  - apply onDeployment_listing_count.
  - apply listing_count_consistent_step.
Qed.

Lemma reachable_records_valid st : reachable st -> records_valid st.
Proof.
  apply reachable_invariant.
  - apply onDeployment_records_valid.
  - apply records_valid_step.
Qed.

(** *** The event log *)

Lemma execute_revert_events chain m st e st' :
  execute chain m st = (inl e, st') -> events st' = events st.
Proof.
  intros H. destruct m; unfold_all;
    exec_any_in H; injection H as _ <-;
    rewrite ?events_sstore; reflexivity.
Qed.

Lemma events_extend_step tx st : events_extend st (snd (apply_tx tx st)).
Proof.
  destruct tx as [chain m]. unfold apply_tx, events_extend.
  cbn [tx_chain tx_method].
  destruct (execute chain m st) as [[e | out] st'] eqn:H; simpl.
  - exists []. rewrite (execute_revert_events _ _ _ _ _ H).
    by rewrite app_nil_r.
  - exists (emitted chain m st). by apply (execute_events _ _ _ out).
Qed.

Lemma events_extend_run txs st : events_extend st (run txs st).
Proof.
  apply (run_invariant (fun s => events_extend st s)).
  - intros tx s [new Hnew].
    destruct (events_extend_step tx s) as [new' Hnew'].
    exists (new ++ new')%list. rewrite Hnew', Hnew. by rewrite app_assoc.
  - exists []. by rewrite app_nil_r.
Qed.

(** *** Methods that make no remote call *)

Lemma execute_no_call chain1 chain2 m st :
  calls_out m = false ->
  tx_sender chain1 = tx_sender chain2 ->
  contractDeployer chain1 = contractDeployer chain2 ->
  execute chain1 m st = execute chain2 m st.
Proof.
  intros Hm Hsender Hdeployer.
  destruct m; try discriminate; cbn [execute];
    unfold_methods; unfold_helpers; rewrite ?Hsender, ?Hdeployer;
    reflexivity.
Qed.

Lemma acceptBid_same_answers chain1 chain2 id st :
  tx_sender chain1 = tx_sender chain2 ->
  (forall collection tokenId,
     call chain1 collection (ownerOfCalldata tokenId)
     = call chain2 collection (ownerOfCalldata tokenId)) ->
  (forall collection from to tokenId,
     success (call chain1 collection (transferCalldata from to tokenId)) =
     success (call chain2 collection (transferCalldata from to tokenId))) ->
  acceptBid chain1 id st = acceptBid chain2 id st.
Proof.
  intros Hsender Howner Htransfer.
  unfold acceptBid, verifyOwnership, executeNFTTransfer, emitBidAccepted.
  rewrite Hsender. unfold_monad.
  destruct (requireActiveBid id st) as [[e | []] st1]; [reflexivity |].
  simpl. rewrite Howner.
  destruct (negb (success _)); [reflexivity |].
  destruct (negb (equals _ _)); [reflexivity |]. simpl.
  safemath_cases; [| reflexivity].
  rewrite Htransfer. reflexivity.
Qed.

(** *** Records that do not exist *)

Lemma requireActiveListing_missing id st :
  id = 0 \/ nextListingId st <= id ->
  requireActiveListing id st = (inl (mkRevert "Listing does not exist"), st).
Proof.
  intros Hout. rewrite requireActiveListing_spec.
  unfold u256.ge, u256.eq, u256.Zero.
  destruct (N.leb_spec (nextListingId st) id); [reflexivity |].
  destruct (N.eqb_spec id 0); [reflexivity | lia].
Qed.

Lemma requireActiveBid_missing id st :
  id = 0 \/ nextBidId st <= id ->
  requireActiveBid id st = (inl (mkRevert "Bid does not exist"), st).
Proof.
  intros Hout. rewrite requireActiveBid_spec.
  unfold u256.ge, u256.eq, u256.Zero.
  destruct (N.leb_spec (nextBidId st) id); [reflexivity |].
  destruct (N.eqb_spec id 0); [reflexivity | lia].
Qed.

Lemma cancelListing_guard chain id st e st' :
  requireActiveListing id st = (inl e, st') ->
  cancelListing chain id st = (inl e, st').
Proof. intros H. unfold cancelListing, bind at 1. by rewrite H. Qed.

Lemma cancelBid_guard chain id st e st' :
  requireActiveBid id st = (inl e, st') ->
  cancelBid chain id st = (inl e, st').
Proof. intros H. unfold cancelBid, bind at 1. by rewrite H. Qed.

(** *** Administration *)

Lemma onlyDeployer_other chain st :
  tx_sender chain <> contractDeployer chain ->
  onlyDeployer chain (tx_sender chain) st
  = (inl (mkRevert "Only deployer can call this method"), st).
Proof.
  intros Hne. unfold onlyDeployer.
  rewrite equals_false by congruence. reflexivity.
Qed.

Lemma onlyDeployer_deployer chain st :
  tx_sender chain = contractDeployer chain ->
  onlyDeployer chain (tx_sender chain) st = (inr tt, st).
Proof.
  intros Heq. unfold onlyDeployer. rewrite Heq, equals_true. reflexivity.
Qed.

Lemma admin_needs_deployer chain m st :
  is_admin_method m = true ->
  tx_sender chain <> contractDeployer chain ->
  execute chain m st
  = (inl (mkRevert "Only deployer can call this method"), st).
Proof.
  intros Hm Hne.
  destruct m; try discriminate; cbn [execute];
    unfold_methods; unfold bind at 1;
    by rewrite (onlyDeployer_other _ _ Hne).
Qed.

Lemma registerCollection_ok chain collection royaltyBps recipient st :
  tx_sender chain = contractDeployer chain ->
  collection <> 0 -> royaltyBps <= 1000 -> recipient <> 0 ->
  registerCollection chain collection royaltyBps recipient st =
    (inr [writeBoolean true],
     append_event (CollectionRegisteredEvent collection royaltyBps)
       (sstore collectionRoyaltyRecipientPointer (addressToU256 collection)
          (addressToU256 recipient)
          (sstore collectionRoyaltyBpsPointer collection royaltyBps
             (sstore collectionRegisteredPointer collection u256.One st)))).
Proof.
  intros Hdep Hc Hbps Hr. unfold registerCollection, bind at 1.
  rewrite (onlyDeployer_deployer _ _ Hdep).
  unfold emitCollectionRegistered, isZero, u256.gt; unfold_monad.
  rewrite MAX_ROYALTY_BPS_eq.
  destruct (N.eqb_spec collection 0); [done |].
  destruct (N.ltb_spec 1000 royaltyBps); [lia |].
  destruct (N.eqb_spec recipient 0); [done |]. reflexivity.
Qed.

Lemma updateRoyalty_ok chain collection newBps recipient st :
  tx_sender chain = contractDeployer chain ->
  collectionRegistered st collection <> 0 ->
  newBps <= 1000 -> recipient <> 0 ->
  updateRoyalty chain collection newBps recipient st =
    (inr [writeBoolean true],
     sstore collectionRoyaltyRecipientPointer (addressToU256 collection)
       (addressToU256 recipient)
       (sstore collectionRoyaltyBpsPointer collection newBps st)).
Proof.
  intros Hdep Hreg Hbps Hr. unfold updateRoyalty, bind at 1.
  rewrite (onlyDeployer_deployer _ _ Hdep).
  unfold isZero, u256.gt, u256.eq, u256.Zero; unfold_monad.
  unfold collectionRegistered in Hreg. rewrite MAX_ROYALTY_BPS_eq.
  destruct (N.eqb_spec (sload collectionRegisteredPointer collection st) 0);
    [done |].
  destruct (N.ltb_spec 1000 newBps); [lia |].
  destruct (N.eqb_spec recipient 0); [done |]. reflexivity.
Qed.

Lemma updateRoyalty_unregistered chain collection newBps recipient st :
  tx_sender chain = contractDeployer chain ->
  collectionRegistered st collection = 0 ->
  updateRoyalty chain collection newBps recipient st
  = (inl (mkRevert "Collection not registered"), st).
Proof.
  intros Hdep Hreg. unfold updateRoyalty, bind at 1.
  rewrite (onlyDeployer_deployer _ _ Hdep).
  unfold u256.eq, u256.Zero; unfold_monad.
  unfold collectionRegistered in Hreg. rewrite Hreg. reflexivity.
Qed.

Lemma getCollectionInfo_spec collection st :
  getCollectionInfo collection st =
    (inr [writeU256 (collectionRegistered st collection);
          writeU256 (collectionRoyaltyBps st collection);
          writeU256 (addressToU256 (collectionRoyaltyRecipient st collection))],
     st).
Proof. reflexivity. Qed.

Lemma getPlatformInfo_spec st :
  getPlatformInfo st =
    (inr [writeU256 (platformFeeBps st);
          writeAddress (platformFeeRecipient st);
          writeU256 (totalVolume st); writeU256 (totalListings st)], st).
Proof. reflexivity. Qed.

Lemma getBid_spec id st :
  getBid id st =
    (inr [writeU256 (sload bidCollectionPointer id st);
          writeU256 (sload bidTokenIdPointer id st);
          writeU256 (sload bidBidderPointer id st);
          writeU256 (sload bidAmountPointer id st);
          writeU256 (sload bidActivePointer id st)], st).
Proof. reflexivity. Qed.

Lemma setPlatformFee_ok chain newFeeBps st :
  tx_sender chain = contractDeployer chain -> newFeeBps <= 500 ->
  setPlatformFee chain newFeeBps st =
    (inr [writeBoolean true], sstore platformFeeBpsPointer 0 newFeeBps st).
Proof.
  intros Hdep Hbps. unfold setPlatformFee, bind at 1.
  rewrite (onlyDeployer_deployer _ _ Hdep).
  unfold u256.gt; unfold_monad. rewrite MAX_PLATFORM_FEE_BPS_eq.
  destruct (N.ltb_spec 500 newFeeBps); [lia | reflexivity].
Qed.

Lemma setPlatformFeeRecipient_ok chain newRecipient st :
  tx_sender chain = contractDeployer chain -> newRecipient <> 0 ->
  setPlatformFeeRecipient chain newRecipient st =
    (inr [writeBoolean true],
     sstore platformFeeRecipientPointer 0 newRecipient st).
Proof.
  intros Hdep Hr. unfold setPlatformFeeRecipient, bind at 1.
  rewrite (onlyDeployer_deployer _ _ Hdep).
  unfold isZero; unfold_monad.
  destruct (N.eqb_spec newRecipient 0); [done | reflexivity].
Qed.

Lemma setPlatformFeeRecipient_null chain st :
  exists e, setPlatformFeeRecipient chain 0 st = (inl e, st).
Proof.
  unfold setPlatformFeeRecipient, onlyDeployer; unfold_monad.
  destruct (negb _); simpl; eauto.
Qed.

(** *** Creating records *)

Lemma placeBid_success chain collectionAddr tokenId amount st out st' :
  placeBid chain collectionAddr tokenId amount st = (inr out, st') ->
  collectionAddr <> 0 /\ amount <> 0 /\
  out = [writeU256 (nextBidId st)] /\
  nextBidId st' = nextBidId st + 1 /\
  bid_terms st' (nextBidId st)
    = (collectionAddr, tokenId, tx_sender chain, amount) /\
  bidActive st' (nextBidId st) = ACTIVE /\
  events st' = (events st ++
    [BidPlacedEvent (nextBidId st) collectionAddr tokenId (tx_sender chain)
       amount])%list.
Proof.
  unfold_methods; unfold_helpers; unfold_monad; unfold_more_views.
  intros H. exec_in H. injection H as <- <-. bool_to_prop.
  sload_simpl. rewrite events_append_event, !events_sstore. auto 10.
Qed.



Lemma listNFT_record chain collectionAddr tokenId price st out st' :
  listNFT chain collectionAddr tokenId price st = (inr out, st') ->
  collectionAddr <> 0 /\ price <> 0 /\
  listing_terms st' (nextListingId st)
    = (collectionAddr, tokenId, tx_sender chain, price) /\
  listingActive st' (nextListingId st) = ACTIVE /\
  events st' = (events st ++
    [ListingCreatedEvent (nextListingId st) collectionAddr tokenId
       (tx_sender chain) price])%list.
Proof.
  unfold_methods; unfold_helpers; unfold_monad; unfold_more_views.
  intros H. exec_in H. injection H as <- <-. bool_to_prop.
  sload_simpl. rewrite events_append_event, !events_sstore. auto 10.
Qed.

(** *** A trade that went through *)

Lemma buyNFT_success_deactivates chain id st out st' :
  buyNFT chain id st = (inr out, st') ->
  id <> 0 /\ deactivated_listing st' id.
Proof.
  intros H.
  destruct (requireActiveListing_cases id st) as [Hact | [e He]].
  - pose proof Hact as (Hz & Hlt & Hon). split; [exact Hz |].
    unfold buyNFT, bind at 1 in H.
    rewrite (requireActiveListing_active _ _ Hact) in H.
    unfold_helpers; unfold_monad; unfold deactivated_listing; unfold_views.
    revert H. exec; intros [= <- <-]; sload_simpl; auto.
  - rewrite (buyNFT_guard _ _ _ _ _ He) in H. discriminate.
Qed.

Lemma acceptBid_success_deactivates chain id st out st' :
  acceptBid chain id st = (inr out, st') ->
  id <> 0 /\ deactivated_bid st' id.
Proof.
  intros H.
  destruct (requireActiveBid_cases id st) as [Hact | [e He]].
  - pose proof Hact as (Hz & Hlt & Hon). split; [exact Hz |].
    unfold acceptBid, bind at 1 in H.
    rewrite (requireActiveBid_active _ _ Hact) in H.
    unfold_helpers; unfold_monad; unfold deactivated_bid; unfold_views.
    revert H. exec; intros [= <- <-]; sload_simpl; auto.
  - rewrite (acceptBid_guard _ _ _ _ _ He) in H. discriminate.
Qed.

Lemma buyNFT_deactivated chain id st :
  id <> 0 -> deactivated_listing st id ->
  buyNFT chain id st = (inl (mkRevert "Listing is not active"), st).
Proof.
  intros Hz Hoff. apply buyNFT_guard.
  by apply requireActiveListing_deactivated.
Qed.

Lemma acceptBid_deactivated chain id st :
  id <> 0 -> deactivated_bid st id ->
  acceptBid chain id st = (inl (mkRevert "Bid is not active"), st).
Proof.
  intros Hz Hoff. apply acceptBid_guard.
  by apply requireActiveBid_deactivated.
Qed.

Lemma acceptBid_unverified chain id st :
  ownership_confirmed chain (bidCollection st id) (bidTokenId st id)
    (tx_sender chain) = false ->
  exists e, acceptBid chain id st = (inl e, st).
Proof.
  intros Hown.
  destruct (requireActiveBid_cases id st) as [Hact | [e He]].
  - unfold acceptBid, bind at 1.
    rewrite (requireActiveBid_active _ _ Hact).
    unfold_monad. simpl.
    unfold bidCollection, bidTokenId in Hown.
    rewrite verifyOwnership_spec, Hown.
    destruct (success _); eauto.
  - exists e. by apply acceptBid_guard.
Qed.

(** *** Reverts *)

Lemma execute_revert_state chain m st e st' :
  listing_count_consistent st ->
  execute chain m st = (inl e, st') ->
  st' = st \/
  (is_trade m = true /\
   (e = mkRevert "SafeMath: addition overflow" \/
    e = mkRevert "NFT transfer failed")).
Proof.
  intros (Hone & Hfit & Hcount) H. unfold_views.
  destruct m; unfold_all;
    exec_any_in H; simplify_eq; auto; bool_to_prop; lia.
Qed.

(** * Further properties of the contract *)

(** X1. A successful [placeBid] returns the value the bid counter had
    before the call and advances the counter by one; [getBid] of that id
    then returns the collection, token, caller and amount of the call
    with the flag at 1; the listing ledger and the volume are as they
    were. *)
Theorem placeBid_allocates_and_records
    chain collectionAddr tokenId amount st out st' :
  placeBid chain collectionAddr tokenId amount st = (inr out, st') ->
  out = [writeU256 (nextBidId st)] /\
  nextBidId st' = nextBidId st + 1 /\
  getBid (nextBidId st) st' =
    (inr [writeU256 collectionAddr; writeU256 tokenId;
          writeU256 (tx_sender chain); writeU256 amount; writeU256 1], st') /\
  same_listings st st' /\
  totalVolume st' = totalVolume st.
Proof.
  intros H.
  pose proof (listings_frame chain
                (placeBidSelector collectionAddr tokenId amount) st eq_refl)
    as Hframe.
  pose proof (totalVolume_frame chain
                (placeBidSelector collectionAddr tokenId amount) st eq_refl)
    as Hvol.
  cbn [execute] in Hframe, Hvol. rewrite H in Hframe, Hvol. simpl in *.
  apply placeBid_success in H as (_ & _ & -> & Hnext & Hterms & Hact & _).
  rewrite getBid_spec.
  unfold bid_terms, bidCollection, bidTokenId, bidBidder, bidAmount,
    bidActive, u256ToAddress in *.
  injection Hterms as -> -> -> ->. rewrite Hact. auto.
Qed.

Lemma placeBid_allocates_and_records_witness :
  [writeU256 1] = [writeU256 (nextBidId listed)] /\
  nextBidId listed_and_bid = nextBidId listed + 1 /\
  getBid (nextBidId listed) listed_and_bid =
    (inr [writeU256 collectionC; writeU256 7;
          writeU256 (tx_sender (chain_of bob alice true true));
          writeU256 900; writeU256 1], listed_and_bid) /\
  same_listings listed listed_and_bid /\
  totalVolume listed_and_bid = totalVolume listed.
Proof.
  assert (Hrun :
    placeBid (chain_of bob alice true true) collectionC 7 900 listed
    = (inr [writeU256 1], listed_and_bid))
    by (vm_compute; reflexivity).
  exact (placeBid_allocates_and_records _ _ _ _ _ _ _ Hrun).
Defined.



(** X3. After a successful [listNFT], [getListing] of the id it returned
    gives the collection, token, caller and price of the call with the
    flag at 1, and the listing is active; the bid ledger and the volume
    are as they were. *)
Theorem listNFT_then_getListing
    chain collectionAddr tokenId price st out st' :
  listNFT chain collectionAddr tokenId price st = (inr out, st') ->
  nextListingId st <> 0 ->
  getListing (nextListingId st) st' =
    (inr [writeU256 collectionAddr; writeU256 tokenId;
          writeU256 (tx_sender chain); writeU256 price; writeU256 1], st') /\
  active_listing st' (nextListingId st) /\
  same_bids st st' /\
  totalVolume st' = totalVolume st.
Proof.
  intros H Hz.
  pose proof (bids_frame chain
                (listNFTSelector collectionAddr tokenId price) st eq_refl)
    as Hframe.
  pose proof (totalVolume_frame chain
                (listNFTSelector collectionAddr tokenId price) st eq_refl)
    as Hvol.
  cbn [execute] in Hframe, Hvol. rewrite H in Hframe, Hvol. simpl in *.
  pose proof (listNFT_success _ _ _ _ _ _ _ H) as (_ & Hnext & _).
  apply listNFT_record in H as (_ & _ & Hterms & Hact & _).
  rewrite getListing_spec.
  unfold active_listing. rewrite Hnext, Hact.
  unfold listing_terms, listingCollection, listingTokenId, listingSeller,
    listingPrice, listingActive, u256ToAddress in *.
  injection Hterms as -> -> -> ->. rewrite Hact.
  split; [reflexivity |]. split; [| auto].
  split; [exact Hz |]. split; [lia | discriminate].
Qed.

Lemma listNFT_then_getListing_witness :
  getListing (nextListingId deployed) listed =
    (inr [writeU256 collectionC; writeU256 7;
          writeU256 (tx_sender (chain_of alice alice true true));
          writeU256 1000; writeU256 1], listed) /\
  active_listing listed (nextListingId deployed) /\
  same_bids deployed listed /\
  totalVolume listed = totalVolume deployed.
Proof.
  assert (Hrun :
    listNFT (chain_of alice alice true true) collectionC 7 1000 deployed
    = (inr [writeU256 1], listed))
    by (vm_compute; reflexivity).
  assert (Hz : nextListingId deployed <> 0) by (vm_compute; discriminate).
  exact (listNFT_then_getListing _ _ _ _ _ _ _ Hrun Hz).
Defined.

(** X4. Only [listNFT], [buyNFT] and [acceptBid] talk to a collection:
    every other method gives the same result and the same state in two
    environments with the same caller and the same deployer, whatever
    their collections answer and whatever the address of the contract. *)
Theorem other_methods_make_no_remote_call chain1 chain2 m st :
  calls_out m = false ->
  tx_sender chain1 = tx_sender chain2 ->
  contractDeployer chain1 = contractDeployer chain2 ->
  execute chain1 m st = execute chain2 m st.
Proof. apply execute_no_call. Qed.

Lemma other_methods_make_no_remote_call_witness :
  execute (chain_of alice alice true true) (cancelListingSelector 1) listed
  = execute (chain_of alice bob false false) (cancelListingSelector 1) listed.
Proof.
  exact (other_methods_make_no_remote_call
           (chain_of alice alice true true) (chain_of alice bob false false)
           (cancelListingSelector 1) listed eq_refl eq_refl eq_refl).
Defined.

(** X5. [acceptBid] asks for the owner and for the transfer, never for an
    approval: two environments with the same caller whose collections
    answer [ownerOf] alike and report the same outcome of the transfer
    give the same result and the same state. *)
Theorem acceptBid_ignores_approval chain1 chain2 id st :
  tx_sender chain1 = tx_sender chain2 ->
  (forall collection tokenId,
     call chain1 collection (ownerOfCalldata tokenId)
     = call chain2 collection (ownerOfCalldata tokenId)) ->
  (forall collection from to tokenId,
     success (call chain1 collection (transferCalldata from to tokenId)) =
     success (call chain2 collection (transferCalldata from to tokenId))) ->
  acceptBid chain1 id st = acceptBid chain2 id st.
Proof. apply acceptBid_same_answers. Qed.

Lemma acceptBid_ignores_approval_witness :
  acceptBid (chain_of alice alice true true) 1 listed_and_bid
  = acceptBid (chain_of alice alice false true) 1 listed_and_bid.
Proof.
  exact (acceptBid_ignores_approval
           (chain_of alice alice true true) (chain_of alice alice false true)
           1 listed_and_bid eq_refl
           (fun _ _ => eq_refl) (fun _ _ _ _ => eq_refl)).
Defined.

(** X6. An id that is 0 or not yet allocated is refused by every method
    that acts on a record: [cancelListing] and [buyNFT] revert with the
    listing-does-not-exist message, [cancelBid] and [acceptBid] with the
    bid-does-not-exist message, and the state is as it was. *)
Theorem missing_record_is_refused chain id st :
  (id = 0 \/ nextListingId st <= id ->
   cancelListing chain id st
     = (inl (mkRevert "Listing does not exist"), st) /\
   buyNFT chain id st = (inl (mkRevert "Listing does not exist"), st)) /\
  (id = 0 \/ nextBidId st <= id ->
   cancelBid chain id st = (inl (mkRevert "Bid does not exist"), st) /\
   acceptBid chain id st = (inl (mkRevert "Bid does not exist"), st)).
Proof.
  split; intros Hout.
  - apply requireActiveListing_missing in Hout.
    split; [by apply cancelListing_guard | by apply buyNFT_guard].
  - apply requireActiveBid_missing in Hout.
    split; [by apply cancelBid_guard | by apply acceptBid_guard].
Qed.

Lemma missing_record_is_refused_witness :
  (cancelListing (chain_of alice alice true true) 2 listed
     = (inl (mkRevert "Listing does not exist"), listed) /\
   buyNFT (chain_of alice alice true true) 2 listed
     = (inl (mkRevert "Listing does not exist"), listed)) /\
  (cancelBid (chain_of alice alice true true) 0 listed
     = (inl (mkRevert "Bid does not exist"), listed) /\
   acceptBid (chain_of alice alice true true) 0 listed
     = (inl (mkRevert "Bid does not exist"), listed)).
Proof.
  split.
  - apply (proj1 (missing_record_is_refused
                    (chain_of alice alice true true) 2 listed)).
    right. vm_compute. discriminate.
  - apply (proj2 (missing_record_is_refused
                    (chain_of alice alice true true) 0 listed)).
    left. reflexivity.
Defined.

(** X7. On an active listing [cancelListing] succeeds exactly for the
    recorded seller: for the seller it returns true, emits
    [ListingCancelled] and changes nothing but the flag of that listing;
    for anyone else it reverts with the only-seller message and the state
    is as it was. *)
Theorem cancelListing_on_active_listing chain id st :
  active_listing st id ->
  (tx_sender chain = listingSeller st id ->
   cancelListing chain id st =
     (inr [writeBoolean true],
      append_event (ListingCancelledEvent id)
        (sstore listingActivePointer id INACTIVE st))) /\
  (tx_sender chain <> listingSeller st id ->
   cancelListing chain id st
     = (inl (mkRevert "Only seller can cancel"), st)).
Proof.
  intros Hact. rewrite (cancelListing_active _ _ _ Hact). split; intros H.
  - rewrite H, equals_true. reflexivity.
  - rewrite (equals_false _ _ H). reflexivity.
Qed.

Lemma cancelListing_on_active_listing_witness :
  cancelListing (chain_of bob alice true true) 1 listed
  = (inl (mkRevert "Only seller can cancel"), listed).
Proof.
  assert (Hact : active_listing listed 1)
    by (unfold active_listing; vm_compute; repeat split; discriminate).
  assert (Hother :
    tx_sender (chain_of bob alice true true) <> listingSeller listed 1)
    by (vm_compute; discriminate).
  exact (proj2 (cancelListing_on_active_listing
                  (chain_of bob alice true true) 1 listed Hact) Hother).
Defined.

(** X8. On an active bid [cancelBid] succeeds exactly for the recorded
    bidder: for the bidder it returns true, emits [BidCancelled] and
    changes nothing but the flag of that bid; for anyone else it reverts
    with the only-bidder message and the state is as it was. *)
Theorem cancelBid_on_active_bid chain id st :
  active_bid st id ->
  (tx_sender chain = bidBidder st id ->
   cancelBid chain id st =
     (inr [writeBoolean true],
      append_event (BidCancelledEvent id)
        (sstore bidActivePointer id INACTIVE st))) /\
  (tx_sender chain <> bidBidder st id ->
   cancelBid chain id st = (inl (mkRevert "Only bidder can cancel"), st)).
Proof.
  intros Hact. rewrite (cancelBid_active _ _ _ Hact). split; intros H.
  - rewrite H, equals_true. reflexivity.
  - rewrite (equals_false _ _ H). reflexivity.
Qed.

Lemma cancelBid_on_active_bid_witness :
  cancelBid (chain_of bob alice true true) 1 listed_and_bid =
    (inr [writeBoolean true],
     append_event (BidCancelledEvent 1)
       (sstore bidActivePointer 1 INACTIVE listed_and_bid)).
Proof.
  assert (Hact : active_bid listed_and_bid 1)
    by (unfold active_bid; vm_compute; repeat split; discriminate).
  assert (Hbidder :
    tx_sender (chain_of bob alice true true) = bidBidder listed_and_bid 1)
    by (vm_compute; reflexivity).
  exact (proj1 (cancelBid_on_active_bid
                  (chain_of bob alice true true) 1 listed_and_bid Hact)
           Hbidder).
Defined.

(** X9. [registerCollection], [setPlatformFee], [setPlatformFeeRecipient]
    and [updateRoyalty] begin with the deployer check: called by anyone
    but the deployer they revert before reading their arguments, and the
    state is as it was. *)
Theorem admin_methods_need_deployer chain m st :
  is_admin_method m = true ->
  tx_sender chain <> contractDeployer chain ->
  execute chain m st
  = (inl (mkRevert "Only deployer can call this method"), st).
Proof. apply admin_needs_deployer. Qed.

Lemma admin_methods_need_deployer_witness :
  execute (chain_of alice alice true true) (setPlatformFeeSelector 0) deployed
  = (inl (mkRevert "Only deployer can call this method"), deployed).
Proof.
  assert (Hother :
    tx_sender (chain_of alice alice true true)
    <> contractDeployer (chain_of alice alice true true))
    by (vm_compute; discriminate).
  exact (admin_methods_need_deployer
           (chain_of alice alice true true) (setPlatformFeeSelector 0)
           deployed eq_refl Hother).
Defined.

(** X10. Called by the deployer with a collection and a recipient that
    are not null and a rate of at most 1000, [registerCollection]
    succeeds whether or not the collection was registered before, emits
    [CollectionRegistered], and [getCollectionInfo] then returns flag 1
    with that rate and that recipient. *)
Theorem registerCollection_then_getCollectionInfo
    chain collection royaltyBps recipient st :
  tx_sender chain = contractDeployer chain ->
  collection <> 0 -> royaltyBps <= 1000 -> recipient <> 0 ->
  exists st',
    registerCollection chain collection royaltyBps recipient st
      = (inr [writeBoolean true], st') /\
    getCollectionInfo collection st' =
      (inr [writeU256 1; writeU256 royaltyBps; writeU256 recipient], st') /\
    events st' =
      (events st ++ [CollectionRegisteredEvent collection royaltyBps])%list.
Proof.
  intros Hdep Hc Hbps Hr. eexists.
  split; [by apply registerCollection_ok |].
  rewrite getCollectionInfo_spec.
  unfold collectionRegistered, collectionRoyaltyBps,
    collectionRoyaltyRecipient, addressToU256, u256ToAddress.
  sload_simpl. rewrite events_append_event, !events_sstore. auto.
Qed.

Lemma registerCollection_then_getCollectionInfo_witness :
  exists st',
    registerCollection admin_chain collectionC 300 bob registered
      = (inr [writeBoolean true], st') /\
    getCollectionInfo collectionC st' =
      (inr [writeU256 1; writeU256 300; writeU256 bob], st') /\
    events st' =
      (events registered ++ [CollectionRegisteredEvent collectionC 300])%list.
Proof.
  assert (Hbps : 300 <= 1000) by (vm_compute; discriminate).
  assert (Hc : collectionC <> 0) by (vm_compute; discriminate).
  assert (Hr : bob <> 0) by (vm_compute; discriminate).
  exact (registerCollection_then_getCollectionInfo
           admin_chain collectionC 300 bob registered eq_refl Hc Hbps Hr).
Defined.

(** X11. [updateRoyalty] by the deployer reverts with the not-registered
    message on a collection whose flag is 0, leaving the state as it was;
    on a registered collection, with a rate of at most 1000 and a
    recipient that is not null, it succeeds, [getCollectionInfo] then
    returns the flag as it was with the new rate and recipient, and no
    event is emitted. *)
Theorem updateRoyalty_on_registry chain collection newBps recipient st :
  tx_sender chain = contractDeployer chain ->
  (collectionRegistered st collection = 0 ->
   updateRoyalty chain collection newBps recipient st
     = (inl (mkRevert "Collection not registered"), st)) /\
  (collectionRegistered st collection <> 0 ->
   newBps <= 1000 -> recipient <> 0 ->
   exists st',
     updateRoyalty chain collection newBps recipient st
       = (inr [writeBoolean true], st') /\
     getCollectionInfo collection st' =
       (inr [writeU256 (collectionRegistered st collection);
             writeU256 newBps; writeU256 recipient], st') /\
     events st' = events st).
Proof.
  intros Hdep. split.
  - intros Hreg. by apply updateRoyalty_unregistered.
  - intros Hreg Hbps Hr. eexists.
    split; [by apply updateRoyalty_ok |].
    rewrite getCollectionInfo_spec.
    unfold collectionRegistered, collectionRoyaltyBps,
      collectionRoyaltyRecipient, addressToU256, u256ToAddress.
    sload_simpl. rewrite !events_sstore. auto.
Qed.

Lemma updateRoyalty_on_registry_witness :
  updateRoyalty admin_chain collectionC 300 bob deployed
  = (inl (mkRevert "Collection not registered"), deployed).
Proof.
  assert (Hreg : collectionRegistered deployed collectionC = 0)
    by (vm_compute; reflexivity).
  exact (proj1 (updateRoyalty_on_registry
                  admin_chain collectionC 300 bob deployed eq_refl) Hreg).
Defined.

(** X12. In every state reachable from a deployment each collection is
    either unregistered, with flag, rate and recipient all zero, or
    registered with flag 1, a collection address and a royalty recipient
    that are not null; and a registered collection stays registered
    through every later sequence of transactions. *)
Theorem registry_stays_consistent st collection txs :
  reachable st ->
  ((collectionRegistered st collection = 0 /\
    collectionRoyaltyBps st collection = 0 /\
    collectionRoyaltyRecipient st collection = 0) \/
   (collectionRegistered st collection = 1 /\
    collection <> 0 /\
    collectionRoyaltyRecipient st collection <> 0)) /\
  (collectionRegistered st collection = 1 ->
   collectionRegistered (run txs st) collection = 1).
Proof.
  intros Hreach. split.
  - exact (reachable_registry_consistent st Hreach collection).
  - apply (run_invariant (fun s => collectionRegistered s collection = 1)).
    intros tx s. apply registered_step.
Qed.

Lemma registry_stays_consistent_witness :
  ((collectionRegistered registered collectionC = 0 /\
    collectionRoyaltyBps registered collectionC = 0 /\
    collectionRoyaltyRecipient registered collectionC = 0) \/
   (collectionRegistered registered collectionC = 1 /\
    collectionC <> 0 /\
    collectionRoyaltyRecipient registered collectionC <> 0)) /\
  (collectionRegistered registered collectionC = 1 ->
   collectionRegistered (run trades registered) collectionC = 1).
Proof.
  apply (registry_stays_consistent registered collectionC trades).
  apply (reachable_step (mkTx admin_chain
           (registerCollectionSelector collectionC 250 alice)) deployed).
  apply reachable_deployed.
Defined.

(** X13. In every state reachable from a deployment the platform fee
    recipient is not the null address; [setPlatformFeeRecipient] refuses
    the null address whoever calls it. *)
Theorem fee_recipient_is_never_null st :
  reachable st ->
  platformFeeRecipient st <> 0 /\
  forall chain, exists e, setPlatformFeeRecipient chain 0 st = (inl e, st).
Proof.
  intros Hreach. split.
  - by apply reachable_platformFeeRecipient.
  - intros chain. apply setPlatformFeeRecipient_null.
Qed.

Lemma fee_recipient_is_never_null_witness :
  platformFeeRecipient traded <> 0 /\
  forall chain, exists e, setPlatformFeeRecipient chain 0 traded = (inl e, traded).
Proof.
  apply (fee_recipient_is_never_null traded).
  apply reachable_run, reachable_deployed.
Defined.

(** X14. In every state reachable from a deployment every allocated
    listing has a collection that is not null and a price that is not
    zero, and every allocated bid a collection that is not null and an
    amount that is not zero. *)
Theorem allocated_records_are_valid st id :
  reachable st -> id <> 0 ->
  (id < nextListingId st ->
   listingCollection st id <> 0 /\ listingPrice st id <> 0) /\
  (id < nextBidId st ->
   bidCollection st id <> 0 /\ bidAmount st id <> 0).
Proof.
  intros Hreach Hz.
  destruct (reachable_records_valid st Hreach) as [Hlist Hbid].
  split; intros Hlt; [by apply Hlist | by apply Hbid].
Qed.

Lemma allocated_records_are_valid_witness :
  (1 < nextListingId traded ->
   listingCollection traded 1 <> 0 /\ listingPrice traded 1 <> 0) /\
  (1 < nextBidId traded ->
   bidCollection traded 1 <> 0 /\ bidAmount traded 1 <> 0).
Proof.
  assert (Hz : 1 <> 0) by discriminate.
  exact (allocated_records_are_valid traded 1
           (reachable_run trades deployed reachable_deployed) Hz).
Defined.

(** X15. In every state reachable from a deployment [totalListings] is
    the number of listing ids handed out: it is [nextListingId] minus
    one, whatever has been cancelled, sold or reverted since. *)
Theorem totalListings_counts_ids st :
  reachable st -> totalListings st + 1 = nextListingId st.
Proof.
  intros Hreach. by destruct (reachable_listing_count st Hreach) as (_ & _ & ?).
Qed.

Lemma totalListings_counts_ids_witness :
  totalListings traded + 1 = nextListingId traded.
Proof.
  exact (totalListings_counts_ids traded
           (reachable_run trades deployed reachable_deployed)).
Defined.

(** X16. The collection, token, seller and price of an allocated listing,
    and the collection, token, bidder and amount of an allocated bid, are
    never rewritten: after any sequence of transactions they are what
    they were, and the id is still allocated. *)
Theorem record_terms_are_immutable txs st id :
  (id < nextListingId st ->
   id < nextListingId (run txs st) /\
   listing_terms (run txs st) id = listing_terms st id) /\
  (id < nextBidId st ->
   id < nextBidId (run txs st) /\
   bid_terms (run txs st) id = bid_terms st id).
Proof.
  split; [apply listing_terms_run | apply bid_terms_run].
Qed.

Lemma record_terms_are_immutable_witness :
  listing_terms (run trades listed) 1 = listing_terms listed 1.
Proof.
  assert (Hlt : 1 < nextListingId listed) by (vm_compute; reflexivity).
  exact (proj2 (proj1 (record_terms_are_immutable trades listed 1) Hlt)).
Defined.

(** X17. [nextListingId], [nextBidId], [totalListings] and [totalVolume]
    never decrease, over any sequence of transactions, successful or
    reverted. *)
Theorem counters_never_decrease txs st :
  nextListingId st <= nextListingId (run txs st) /\
  nextBidId st <= nextBidId (run txs st) /\
  totalListings st <= totalListings (run txs st) /\
  totalVolume st <= totalVolume (run txs st).
Proof. exact (grown_run txs st). Qed.

(** X18. The two ledgers are independent: a method other than [placeBid],
    [cancelBid] and [acceptBid] leaves the bid counter and every bid as
    they were, and a method other than [listNFT], [cancelListing] and
    [buyNFT] leaves the listing counter, the listing count and every
    listing as they were; so accepting a bid never deactivates a listing
    of the same token. *)
Theorem ledgers_are_independent chain m st :
  (is_bid_method m = false -> same_bids st (snd (execute chain m st))) /\
  (is_listing_method m = false ->
   same_listings st (snd (execute chain m st))).
Proof. split; [apply bids_frame | apply listings_frame]. Qed.

Lemma ledgers_are_independent_witness :
  same_listings listed_and_bid
    (snd (execute (chain_of alice alice true true) (acceptBidSelector 1)
            listed_and_bid)).
Proof.
  exact (proj2 (ledgers_are_independent
                  (chain_of alice alice true true) (acceptBidSelector 1)
                  listed_and_bid) eq_refl).
Defined.

(** X19. The event log is append-only: after any sequence of
    transactions the log begins with the log as it was. *)
Theorem event_log_is_append_only txs st :
  exists new, events (run txs st) = (events st ++ new)%list.
Proof. exact (events_extend_run txs st). Qed.

(** X20. A call that reverts leaves the event log as it was, also when it
    reverts after its writes; a call that succeeds appends exactly the
    events of its method: one for [listNFT], [cancelListing], [buyNFT],
    [placeBid], [cancelBid], [acceptBid] and [registerCollection], with
    the fields of the event class, and none for the other methods. *)
Theorem events_of_a_call chain m st r st' :
  execute chain m st = (r, st') ->
  events st' =
    match r with
    | inl _ => events st
    | inr _ => (events st ++ emitted chain m st)%list
    end.
Proof.
  intros H. destruct r as [e | out].
  - by apply (execute_revert_events _ _ _ _ _ H).
  - by apply (execute_events _ _ _ _ _ H).
Qed.

Lemma events_of_a_call_witness :
  events buy_failed = events listed_and_bid.
Proof.
  assert (Hrun :
    execute (chain_of bob alice true false) (buyNFTSelector 1) listed_and_bid
    = (inl (mkRevert "NFT transfer failed"), buy_failed))
    by (vm_compute; reflexivity).
  exact (events_of_a_call _ _ _ _ _ Hrun).
Defined.

(** X21. [buyNFT] goes through when the listing is active, the caller is
    not its seller, the volume plus the price fits in 256 bits and the
    collection reports the transfer from seller to caller as done: it
    returns true, sets the flag of the listing to [INACTIVE], adds the
    price to [totalVolume], emits [ListingSold] with the id, the caller
    and the price, and writes nothing else. *)
Theorem buyNFT_goes_through chain id st :
  active_listing st id ->
  tx_sender chain <> listingSeller st id ->
  totalVolume st + listingPrice st id < U256_MODULUS ->
  success (call chain (listingCollection st id)
             (transferCalldata (listingSeller st id) (tx_sender chain)
                (listingTokenId st id))) = true ->
  buyNFT chain id st =
    (inr [writeBoolean true],
     append_event
       (ListingSoldEvent id (tx_sender chain) (listingPrice st id))
       (sstore totalVolumePointer 0 (totalVolume st + listingPrice st id)
          (sstore listingActivePointer id INACTIVE st))).
Proof.
  intros Hact Hother Hfit Hdone.
  assert (Hprice : is_u256 (listingPrice st id)) by (unfold is_u256; lia).
  rewrite (buyNFT_spec _ _ _ Hact Hprice). cbv zeta.
  rewrite (equals_false _ _ Hother).
  apply N.ltb_lt in Hfit. rewrite Hfit.
  unfold listingCollection, listingTokenId in Hdone. rewrite Hdone.
  reflexivity.
Qed.

Lemma buyNFT_goes_through_witness :
  buyNFT (chain_of bob alice true true) 1 listed =
    (inr [writeBoolean true],
     append_event
       (ListingSoldEvent 1 (tx_sender (chain_of bob alice true true))
          (listingPrice listed 1))
       (sstore totalVolumePointer 0 (totalVolume listed + listingPrice listed 1)
          (sstore listingActivePointer 1 INACTIVE listed))).
Proof.
  assert (Hact : active_listing listed 1)
    by (unfold active_listing; vm_compute; repeat split; discriminate).
  assert (Hother :
    tx_sender (chain_of bob alice true true) <> listingSeller listed 1)
    by (vm_compute; discriminate).
  assert (Hfit : totalVolume listed + listingPrice listed 1 < U256_MODULUS)
    by (vm_compute; reflexivity).
  exact (buyNFT_goes_through (chain_of bob alice true true) 1 listed
           Hact Hother Hfit eq_refl).
Defined.

(** X22. [acceptBid] goes through when the bid is active, the collection
    reports the caller as the owner of the token, the volume plus the
    amount fits in 256 bits and the collection reports the transfer from
    caller to bidder as done: it returns true, sets the flag of the bid to
    [INACTIVE], adds the amount to [totalVolume], emits [BidAccepted]
    with the id and the caller, and writes nothing else.  No listing is
    needed. *)
Theorem acceptBid_goes_through chain id st :
  active_bid st id ->
  ownership_confirmed chain (bidCollection st id) (bidTokenId st id)
    (tx_sender chain) = true ->
  totalVolume st + bidAmount st id < U256_MODULUS ->
  success (call chain (bidCollection st id)
             (transferCalldata (tx_sender chain) (bidBidder st id)
                (bidTokenId st id))) = true ->
  acceptBid chain id st =
    (inr [writeBoolean true],
     append_event (BidAcceptedEvent id (tx_sender chain))
       (sstore totalVolumePointer 0 (totalVolume st + bidAmount st id)
          (sstore bidActivePointer id INACTIVE st))).
Proof.
  intros Hact Hown Hfit Hdone.
  assert (Hamount : is_u256 (bidAmount st id)) by (unfold is_u256; lia).
  rewrite (acceptBid_spec _ _ _ Hact Hamount). cbv zeta.
  unfold ownership_confirmed, bidCollection, bidTokenId, bidBidder in *.
  cbv zeta in Hown. apply andb_true_iff in Hown as [Hs Ho].
  rewrite Hs, Ho. simpl.
  apply N.ltb_lt in Hfit. rewrite Hfit, Hdone. reflexivity.
Qed.

Lemma acceptBid_goes_through_witness :
  acceptBid (chain_of alice alice true true) 1 listed_and_bid =
    (inr [writeBoolean true],
     append_event
       (BidAcceptedEvent 1 (tx_sender (chain_of alice alice true true)))
       (sstore totalVolumePointer 0
          (totalVolume listed_and_bid + bidAmount listed_and_bid 1)
          (sstore bidActivePointer 1 INACTIVE listed_and_bid))).
Proof.
  assert (Hact : active_bid listed_and_bid 1)
    by (unfold active_bid; vm_compute; repeat split; discriminate).
  assert (Hfit :
    totalVolume listed_and_bid + bidAmount listed_and_bid 1 < U256_MODULUS)
    by (vm_compute; reflexivity).
  exact (acceptBid_goes_through (chain_of alice alice true true) 1
           listed_and_bid Hact eq_refl Hfit eq_refl).
Defined.

(** X23. [acceptBid] checks with the collection that the caller owns the
    token before it writes: when the [ownerOf] call fails or names
    someone else, [acceptBid] reverts, the bid stays as it was and the
    volume is not touched. *)
Theorem acceptBid_by_non_owner_fails_unchanged chain id st :
  ownership_confirmed chain (bidCollection st id) (bidTokenId st id)
    (tx_sender chain) = false ->
  exists e, acceptBid chain id st = (inl e, st).
Proof. apply acceptBid_unverified. Qed.

Lemma acceptBid_by_non_owner_fails_unchanged_witness :
  exists e, acceptBid (chain_of bob alice true true) 1 listed_and_bid
            = (inl e, listed_and_bid).
Proof.
  assert (Hown :
    ownership_confirmed (chain_of bob alice true true)
      (bidCollection listed_and_bid 1) (bidTokenId listed_and_bid 1)
      (tx_sender (chain_of bob alice true true)) = false)
    by (vm_compute; reflexivity).
  exact (acceptBid_by_non_owner_fails_unchanged
           (chain_of bob alice true true) 1 listed_and_bid Hown).
Defined.

(** X24. A listing is sold at most once and a bid accepted at most once:
    after a successful [buyNFT] every later [buyNFT] and [cancelListing]
    of the same id, by anyone and after any sequence of transactions,
    reverts with the not-active message; likewise [acceptBid] and
    [cancelBid] after a successful [acceptBid]. *)
Theorem trade_is_final chain chain' id st out st1 txs :
  (buyNFT chain id st = (inr out, st1) ->
   buyNFT chain' id (run txs st1)
     = (inl (mkRevert "Listing is not active"), run txs st1) /\
   cancelListing chain' id (run txs st1)
     = (inl (mkRevert "Listing is not active"), run txs st1)) /\
  (acceptBid chain id st = (inr out, st1) ->
   acceptBid chain' id (run txs st1)
     = (inl (mkRevert "Bid is not active"), run txs st1) /\
   cancelBid chain' id (run txs st1)
     = (inl (mkRevert "Bid is not active"), run txs st1)).
Proof.
  split; intros H.
  - apply buyNFT_success_deactivates in H as [Hz Hoff].
    apply (deactivated_listing_run txs) in Hoff.
    split; [by apply buyNFT_deactivated | by apply cancelListing_deactivated].
  - apply acceptBid_success_deactivates in H as [Hz Hoff].
    apply (deactivated_bid_run txs) in Hoff.
    split; [by apply acceptBid_deactivated | by apply cancelBid_deactivated].
Qed.

Lemma trade_is_final_witness :
  buyNFT (chain_of alice bob true true) 1 (run [bob_bids] sold)
    = (inl (mkRevert "Listing is not active"), run [bob_bids] sold) /\
  cancelListing (chain_of alice bob true true) 1 (run [bob_bids] sold)
    = (inl (mkRevert "Listing is not active"), run [bob_bids] sold).
Proof.
  assert (Hrun :
    buyNFT (chain_of bob alice true true) 1 listed
    = (inr [writeBoolean true], sold))
    by (vm_compute; reflexivity).
  exact (proj1 (trade_is_final (chain_of bob alice true true)
                  (chain_of alice bob true true) 1 listed
                  [writeBoolean true] sold [bob_bids]) Hrun).
Defined.

(** X25. [getBid] has no bounds check and never fails: it returns the
    five stored words of the id and leaves the state as it was; in every
    state reachable from a deployment the words of an id that is 0 or not
    yet allocated are all zero. *)
Theorem getBid_returns_fields id st :
  getBid id st =
    (inr [writeU256 (sload bidCollectionPointer id st);
          writeU256 (sload bidTokenIdPointer id st);
          writeU256 (sload bidBidderPointer id st);
          writeU256 (sload bidAmountPointer id st);
          writeU256 (sload bidActivePointer id st)], st) /\
  (reachable st -> id = 0 \/ nextBidId st <= id ->
   getBid id st =
     (inr [writeU256 0; writeU256 0; writeU256 0; writeU256 0; writeU256 0],
      st)).
Proof.
  split; [apply getBid_spec |].
  intros Hreach Hout. rewrite getBid_spec.
  apply reachable_bids_in_range in Hreach as [_ Hzero].
  destruct (Hzero id Hout) as (-> & -> & -> & -> & ->). reflexivity.
Qed.

Lemma getBid_returns_fields_witness :
  getBid 2 listed_and_bid =
    (inr [writeU256 0; writeU256 0; writeU256 0; writeU256 0; writeU256 0],
     listed_and_bid).
Proof.
  apply (proj2 (getBid_returns_fields 2 listed_and_bid)).
  - apply reachable_run, reachable_deployed.
  - right. vm_compute. discriminate.
Defined.

(** X26. [onDeployment] refuses a null fee recipient and a fee above 500
    and then writes nothing; otherwise it succeeds from the empty store,
    after which both id counters are 1, the log is empty and
    [getPlatformInfo] returns the fee, the recipient, volume 0 and
    listing count 0. *)
Theorem onDeployment_initialises feeRecipient feeBps :
  (feeRecipient = 0 \/ 500 < feeBps ->
   forall st, exists e, onDeployment feeRecipient feeBps st = (inl e, st)) /\
  (feeRecipient <> 0 -> feeBps <= 500 ->
   exists st,
     onDeployment feeRecipient feeBps emptyState = (inr tt, st) /\
     nextListingId st = 1 /\ nextBidId st = 1 /\ events st = [] /\
     getPlatformInfo st =
       (inr [writeU256 feeBps; writeAddress feeRecipient; writeU256 0;
             writeU256 0], st)).
Proof.
  split.
  - intros Hbad st.
    unfold onDeployment, isZero, u256.gt; unfold_monad.
    rewrite MAX_PLATFORM_FEE_BPS_eq.
    destruct (N.eqb_spec feeRecipient 0); [eauto |].
    destruct (N.ltb_spec 500 feeBps); [eauto |].
    destruct Hbad; [done | lia].
  - intros Hr Hfee.
    assert (Hrun : exists st,
              onDeployment feeRecipient feeBps emptyState = (inr tt, st)).
    { unfold onDeployment, isZero, u256.gt; unfold_monad.
      rewrite MAX_PLATFORM_FEE_BPS_eq.
      destruct (N.eqb_spec feeRecipient 0); [done |].
      destruct (N.ltb_spec 500 feeBps); [lia |]. simpl. eauto. }
    destruct Hrun as [st Hrun]. exists st.
    split; [exact Hrun |].
    apply onDeployment_counters in Hrun
      as (Hl & Hb & Ht & Hv & Hf & Hrec & _ & _ & Hev).
    rewrite getPlatformInfo_spec, Hl, Hb, Ht, Hv, Hf, Hrec, Hev. auto.
Qed.

Lemma onDeployment_initialises_witness :
  exists st,
    onDeployment admin 250 emptyState = (inr tt, st) /\
    nextListingId st = 1 /\ nextBidId st = 1 /\ events st = [] /\
    getPlatformInfo st =
      (inr [writeU256 250; writeAddress admin; writeU256 0; writeU256 0], st).
Proof.
  assert (Hr : admin <> 0) by (vm_compute; discriminate).
  assert (Hfee : 250 <= 500) by (vm_compute; discriminate).
  exact (proj2 (onDeployment_initialises admin 250) Hr Hfee).
Defined.

(** X27. Called by the deployer, [setPlatformFee] with a fee of at most
    500 and [setPlatformFeeRecipient] with a recipient that is not null
    succeed, and [getPlatformInfo] then returns the new value with the
    three other fields as they were. *)
Theorem platform_setters_then_getPlatformInfo chain st :
  tx_sender chain = contractDeployer chain ->
  (forall newFeeBps, newFeeBps <= 500 ->
   exists st',
     setPlatformFee chain newFeeBps st = (inr [writeBoolean true], st') /\
     getPlatformInfo st' =
       (inr [writeU256 newFeeBps; writeAddress (platformFeeRecipient st);
             writeU256 (totalVolume st); writeU256 (totalListings st)], st')) /\
  (forall newRecipient, newRecipient <> 0 ->
   exists st',
     setPlatformFeeRecipient chain newRecipient st
       = (inr [writeBoolean true], st') /\
     getPlatformInfo st' =
       (inr [writeU256 (platformFeeBps st); writeAddress newRecipient;
             writeU256 (totalVolume st); writeU256 (totalListings st)], st')).
Proof.
  intros Hdep. split.
  - intros newFeeBps Hfee. eexists.
    split; [by apply setPlatformFee_ok |].
    rewrite getPlatformInfo_spec.
    unfold platformFeeBps, platformFeeRecipient, totalVolume, totalListings.
    sload_simpl. reflexivity.
  - intros newRecipient Hr. eexists.
    split; [by apply setPlatformFeeRecipient_ok |].
    rewrite getPlatformInfo_spec.
    unfold platformFeeBps, platformFeeRecipient, totalVolume, totalListings.
    sload_simpl. reflexivity.
Qed.

Lemma platform_setters_then_getPlatformInfo_witness :
  exists st',
    setPlatformFee admin_chain 100 traded = (inr [writeBoolean true], st') /\
    getPlatformInfo st' =
      (inr [writeU256 100; writeAddress (platformFeeRecipient traded);
            writeU256 (totalVolume traded); writeU256 (totalListings traded)],
       st').
Proof.
  assert (Hfee : 100 <= 500) by (vm_compute; discriminate).
  exact (proj1 (platform_setters_then_getPlatformInfo admin_chain traded
                  eq_refl) 100 Hfee).
Defined.

Lemma placeBid_returns chain collectionAddr tokenId amount st out st' :
  placeBid chain collectionAddr tokenId amount st = (inr out, st') ->
  out = [writeU256 (nextBidId st)] /\ nextBidId st' = nextBidId st + 1.
Proof.
  intros H. by apply placeBid_success in H as (_ & _ & ? & ? & _).
Qed.

(** X28. Ids are never reused: a listing id returned by [listNFT] is
    strictly smaller than every listing id returned later, whatever
    happens in between, and likewise the bid ids returned by [placeBid]. *)
Theorem ids_are_never_reused
    chain c t v st id st1 txs chain' c' t' v' id' st2 :
  (listNFT chain c t v st = (inr [writeU256 id], st1) ->
   listNFT chain' c' t' v' (run txs st1) = (inr [writeU256 id'], st2) ->
   id < id') /\
  (placeBid chain c t v st = (inr [writeU256 id], st1) ->
   placeBid chain' c' t' v' (run txs st1) = (inr [writeU256 id'], st2) ->
   id < id').
Proof.
  pose proof (grown_run txs st1) as (Hl & Hb & _).
  split; intros H1 H2.
  - apply listNFT_success in H1 as (Hid & Hnext & _).
    apply listNFT_success in H2 as (Hid' & _).
    injection Hid as ->. injection Hid' as ->. lia.
  - apply placeBid_returns in H1 as (Hid & Hnext).
    apply placeBid_returns in H2 as (Hid' & _).
    injection Hid as ->. injection Hid' as ->. lia.
Qed.

Lemma ids_are_never_reused_witness : 1 < 2.
Proof.
  assert (H1 :
    listNFT (chain_of alice alice true true) collectionC 7 1000 deployed
    = (inr [writeU256 1], listed))
    by (vm_compute; reflexivity).
  assert (H2 :
    listNFT (chain_of alice alice true true) collectionC 8 500
      (run [bob_bids] listed)
    = (inr [writeU256 2], relisted))
    by (vm_compute; reflexivity).
  exact (proj1 (ids_are_never_reused
                  (chain_of alice alice true true) collectionC 7 1000
                  deployed 1 listed [bob_bids]
                  (chain_of alice alice true true) collectionC 8 500
                  2 relisted) H1 H2).
Defined.

(** X29. Outside the two trades a revert is clean: in every state
    reachable from a deployment a call that reverts leaves the state
    exactly as it was, unless it is a [buyNFT] or an [acceptBid] that
    reverted on the volume addition or on the transfer. *)
Theorem revert_is_clean_outside_trades chain m st e st' :
  reachable st ->
  execute chain m st = (inl e, st') ->
  st' = st \/
  (is_trade m = true /\
   (e = mkRevert "SafeMath: addition overflow" \/
    e = mkRevert "NFT transfer failed")).
Proof.
  intros Hreach. apply execute_revert_state.
  by apply reachable_listing_count.
Qed.

Lemma revert_is_clean_outside_trades_witness :
  listed = listed \/
  (is_trade (cancelListingSelector 1) = true /\
   (mkRevert "Only seller can cancel" = mkRevert "SafeMath: addition overflow"
    \/ mkRevert "Only seller can cancel" = mkRevert "NFT transfer failed")).
Proof.
  assert (Hrun :
    execute (chain_of bob alice true true) (cancelListingSelector 1) listed
    = (inl (mkRevert "Only seller can cancel"), listed))
    by (vm_compute; reflexivity).
  exact (revert_is_clean_outside_trades
           (chain_of bob alice true true) (cancelListingSelector 1) listed
           (mkRevert "Only seller can cancel") listed
           (reachable_run [alice_lists] deployed reachable_deployed) Hrun).
Defined.

(** X30. A trade that reverts on the volume addition has already switched
    its record off: when the volume plus the price (amount) does not fit
    in 256 bits, [buyNFT] by a caller other than the seller on an active
    listing, and [acceptBid] by the owner on an active bid, revert with
    the overflow message and leave the state with the flag at [INACTIVE]
    as its only change. *)
Theorem trade_overflow_deactivates chain id st :
  (active_listing st id -> is_u256 (listingPrice st id) ->
   tx_sender chain <> listingSeller st id ->
   U256_MODULUS <= totalVolume st + listingPrice st id ->
   buyNFT chain id st =
     (inl (mkRevert "SafeMath: addition overflow"),
      sstore listingActivePointer id INACTIVE st)) /\
  (active_bid st id -> is_u256 (bidAmount st id) ->
   ownership_confirmed chain (bidCollection st id) (bidTokenId st id)
     (tx_sender chain) = true ->
   U256_MODULUS <= totalVolume st + bidAmount st id ->
   acceptBid chain id st =
     (inl (mkRevert "SafeMath: addition overflow"),
      sstore bidActivePointer id INACTIVE st)).
Proof.
  split.
  - intros Hact Hprice Hother Hbig.
    rewrite (buyNFT_spec _ _ _ Hact Hprice). cbv zeta.
    rewrite (equals_false _ _ Hother).
    apply N.ltb_ge in Hbig. rewrite Hbig. reflexivity.
  - intros Hact Hamount Hown Hbig.
    rewrite (acceptBid_spec _ _ _ Hact Hamount). cbv zeta.
    unfold ownership_confirmed, bidCollection, bidTokenId in *.
    cbv zeta in Hown. apply andb_true_iff in Hown as [Hs Ho].
    rewrite Hs, Ho. simpl.
    apply N.ltb_ge in Hbig. rewrite Hbig. reflexivity.
Qed.

Lemma trade_overflow_deactivates_witness :
  buyNFT (chain_of bob alice true true) 1 nearly_full =
    (inl (mkRevert "SafeMath: addition overflow"),
     sstore listingActivePointer 1 INACTIVE nearly_full).
Proof.
  assert (Hact : active_listing nearly_full 1)
    by (unfold active_listing; vm_compute; repeat split; discriminate).
  assert (Hprice : is_u256 (listingPrice nearly_full 1))
    by (vm_compute; reflexivity).
  assert (Hother :
    tx_sender (chain_of bob alice true true) <> listingSeller nearly_full 1)
    by (vm_compute; discriminate).
  assert (Hbig :
    U256_MODULUS <= totalVolume nearly_full + listingPrice nearly_full 1)
    by (vm_compute; discriminate).
  exact (proj1 (trade_overflow_deactivates
                  (chain_of bob alice true true) 1 nearly_full)
           Hact Hprice Hother Hbig).
Defined.
